(** * OTLP gRPC adapter of apm-server: [beater/otlp/grpc.go]

    A shallow embedding of the monitored-consumer adapter: the two
    per-kind counter groups, the [monitoredConsumer] decorator with its
    [ConsumeTraces] / [ConsumeMetrics] methods, the single global
    [currentMonitoredConsumer] slot, the monitoring callback
    [collectMetricsMonitoring] and the entry point [RegisterGRPCServices].

    Go's package-level variables and the objects reachable from them are
    gathered in one [World] record that every operation threads through;
    a run-time panic (a nil dereference) is the [None] outcome. *)

From stdpp Require Import gmap strings list fin_maps.
From Stdlib Require Import ZArith.

Set Default Proof Using "Type".

(** ** Values of the imported packages *)

(** [request.ResultID]: the four identifiers listed in [monitoringKeys]. *)
Inductive ResultID :=
| IDRequestCount
| IDResponseCount
| IDResponseErrorsCount
| IDResponseValidCount.

Global Instance ResultID_eq_dec : EqDecision ResultID.
Proof. solve_decision. Defined.

Definition ResultID_to_nat (id : ResultID) : nat :=
  match id with
  | IDRequestCount => 0
  | IDResponseCount => 1
  | IDResponseErrorsCount => 2
  | IDResponseValidCount => 3
  end.

Definition ResultID_of_nat (n : nat) : ResultID :=
  match n with
  | 0 => IDRequestCount
  | 1 => IDResponseCount
  | 2 => IDResponseErrorsCount
  | _ => IDResponseValidCount
  end.

Global Instance ResultID_countable : Countable ResultID.
Proof.
  refine (inj_countable' ResultID_to_nat ResultID_of_nat _).
  intros []; reflexivity.
Defined.

(** [monitoringKeys], line 39. *)
Definition monitoringKeys : list ResultID :=
  [IDRequestCount; IDResponseCount; IDResponseErrorsCount; IDResponseValidCount].

(** The telemetry kind selects one of the two package-level maps. *)
Inductive Kind := Traces | Metrics.

Global Instance Kind_eq_dec : EqDecision Kind.
Proof. solve_decision. Defined.

(** A non-nil Go [error].  [errorString] is an error made by a
    collaborator; [withMessage] is what [errors.Wrap] of
    github.com/pkg/errors builds around a cause.  The nil error is [None]
    of [option error]. *)
Inductive error :=
| errorString (msg : string)
| withMessage (cause : error) (msg : string).

Global Instance error_eq_dec : EqDecision error.
Proof. solve_decision. Defined.

(** [errors.Wrap(err, message)]: nil stays nil. *)
Definition errors_Wrap (err : option error) (message : string) : option error :=
  match err with
  | None => None
  | Some e => Some (withMessage e message)
  end.

(** The [Error()] method: a wrapped error prints its message, a colon and
    the cause. *)
Fixpoint Error_string (e : error) : string :=
  match e with
  | errorString m => m
  | withMessage c m => m +:+ ": " +:+ Error_string c
  end.

(** [errors.Cause]: the innermost error of a chain of wraps. *)
Fixpoint errors_Cause (e : error) : error :=
  match e with
  | errorString _ => e
  | withMessage c _ => errors_Cause c
  end.

(** [monitoring.Int] is an atomic int64; [Inc] adds one and wraps. *)
Definition int64_wrap (z : Z) : Z := ((z + 2 ^ 63) mod 2 ^ 64 - 2 ^ 63)%Z.

Definition max_int64 : Z := (2 ^ 63 - 1)%Z.

Definition Int_Inc (v : Z) : Z := int64_wrap (v + 1).

(** [otel.ConsumerStats]. *)
Record ConsumerStats := { UnsupportedMetricsDropped : Z }.

(** *** Logging ([logp]) *)

Inductive Level := DebugLevel | InfoLevel | WarnLevel | ErrorLevel.

Global Instance Level_eq_dec : EqDecision Level.
Proof. solve_decision. Defined.

(** A structured field; [logp.Error(err)] is the field keyed "error". *)
Record Field := { field_key : string; field_error : error }.

Definition logp_Error (err : error) : Field :=
  {| field_key := "error"; field_error := err |}.

(** A [*logp.Logger] is immutable: its accumulated context.  Only non-nil
    loggers are considered: a nil logger makes [With] panic at the first
    downstream error, and no property below speaks about that case. *)
Record Logger := { logger_context : list Field }.

Definition Logger_With (l : Logger) (f : Field) : Logger :=
  {| logger_context := logger_context l ++ [f] |}.

Record LogEntry := {
  entry_level : Level;
  entry_message : string;
  entry_fields : list Field;
}.

(** *** Monitoring visitors ([libbeat/monitoring]) *)

(** The calls a [monitoring.Visitor] receives, in order. *)
Inductive VisitorEvent :=
| OnRegistryStart
| OnRegistryFinished
| OnKey (name : string)
| OnInt (value : Z).

Global Instance VisitorEvent_eq_dec : EqDecision VisitorEvent.
Proof. solve_decision. Defined.

(** [monitoring.ReportInt(V, name, value)]. *)
Definition ReportInt (name : string) (value : Z) : list VisitorEvent :=
  [OnKey name; OnInt value].

(** [monitoring.ReportNamespace(V, name, f)]. *)
Definition ReportNamespace (name : string) (f : list VisitorEvent) : list VisitorEvent :=
  [OnKey name; OnRegistryStart] ++ f ++ [OnRegistryFinished].

(** Pointers to [monitoredConsumer] objects are indices into the heap. *)
Definition loc := nat.

(** [trace.New("otlp", consumer)] and [metrics.New("otlp", consumer)]:
    a receiver remembers its instance name and the consumer it feeds. *)
Record Receiver := { instanceName : string; nextConsumer : loc }.

Definition trace_New (name : string) (c : loc) : Receiver :=
  {| instanceName := name; nextConsumer := c |}.

Definition metrics_New (name : string) (c : loc) : Receiver :=
  {| instanceName := name; nextConsumer := c |}.

(** The effects of the adapter, in the order they happen. *)
Inductive Event :=
| EvInc (k : Kind) (id : ResultID)
| EvConsume (k : Kind) (c : loc) (err : option error)
| EvLog (l : LogEntry)
| EvSetCurrent (c : option loc)
| EvRegisterTraceReceiver (r : Receiver)
| EvRegisterMetricsReceiver (r : Receiver).

(** ** The collaborators, as interfaces

    The adapter reaches the processing pipeline only through
    [otel.Consumer] and the RPC framework only through the two
    [otlpreceiver] registration functions.  Both are taken abstractly:
    an [otel.Consumer] object is a state of type [otelConsumer] and each
    call on it is a transition that may return an error.  That state is
    the one [otel.Consumer]'s own; what a processor handed to several
    registrations keeps between their calls is not followed, and no
    property below relates the downstream answers of two consumers. *)

Class Downstream := {
  context_Context : Type;
  context_Background : context_Context;
  pdata_Traces : Type;
  pdata_Metrics : Type;
  BatchProcessor : Type;
  otelConsumer : Type;
  (* the literal [&otel.Consumer{Processor: processor}] *)
  otel_Consumer : BatchProcessor -> otelConsumer;
  otel_ConsumeTraces :
    context_Context -> pdata_Traces -> otelConsumer -> option error * otelConsumer;
  otel_ConsumeMetrics :
    context_Context -> pdata_Metrics -> otelConsumer -> option error * otelConsumer;
  otel_Stats : otelConsumer -> ConsumerStats;
}.

Class Framework `{Downstream} := {
  grpc_Server : Type;
  otlpreceiver_RegisterTraceReceiver :
    context_Context -> Receiver -> grpc_Server -> option error * grpc_Server;
  otlpreceiver_RegisterMetricsReceiver :
    context_Context -> Receiver -> grpc_Server -> option error * grpc_Server;
}.

Section Adapter.
Context {DS : Downstream} {FW : Framework}.

(** [type monitoredConsumer struct], line 76.  The [*otel.Consumer] is
    owned by this object alone, so its state is kept in place. *)
Record monitoredConsumer := {
  consumer : otelConsumer;
  logger : Logger;
}.

(** The package-level variables (lines 38-47 and 117-120), the allocated
    [monitoredConsumer] objects, the log output and the trace of effects. *)
Record World := {
  gRPCMetricsMonitoringMap : gmap ResultID Z;
  gRPCTracesMonitoringMap : gmap ResultID Z;
  currentMonitoredConsumer : option loc;
  heap : list monitoredConsumer;
  logs : list LogEntry;
  history : list Event;
}.

Definition monitoringMap (k : Kind) (w : World) : gmap ResultID Z :=
  match k with
  | Traces => gRPCTracesMonitoringMap w
  | Metrics => gRPCMetricsMonitoringMap w
  end.

Definition set_monitoringMap (k : Kind) (m : gmap ResultID Z) (w : World) : World :=
  match k with
  | Traces =>
      {| gRPCMetricsMonitoringMap := gRPCMetricsMonitoringMap w;
         gRPCTracesMonitoringMap := m;
         currentMonitoredConsumer := currentMonitoredConsumer w;
         heap := heap w; logs := logs w; history := history w |}
  | Metrics =>
      {| gRPCMetricsMonitoringMap := m;
         gRPCTracesMonitoringMap := gRPCTracesMonitoringMap w;
         currentMonitoredConsumer := currentMonitoredConsumer w;
         heap := heap w; logs := logs w; history := history w |}
  end.

Definition set_current (c : option loc) (w : World) : World :=
  {| gRPCMetricsMonitoringMap := gRPCMetricsMonitoringMap w;
     gRPCTracesMonitoringMap := gRPCTracesMonitoringMap w;
     currentMonitoredConsumer := c;
     heap := heap w; logs := logs w; history := history w |}.

Definition set_heap (h : list monitoredConsumer) (w : World) : World :=
  {| gRPCMetricsMonitoringMap := gRPCMetricsMonitoringMap w;
     gRPCTracesMonitoringMap := gRPCTracesMonitoringMap w;
     currentMonitoredConsumer := currentMonitoredConsumer w;
     heap := h; logs := logs w; history := history w |}.

Definition add_log (l : LogEntry) (w : World) : World :=
  {| gRPCMetricsMonitoringMap := gRPCMetricsMonitoringMap w;
     gRPCTracesMonitoringMap := gRPCTracesMonitoringMap w;
     currentMonitoredConsumer := currentMonitoredConsumer w;
     heap := heap w; logs := logs w ++ [l]; history := history w |}.

Definition record (e : Event) (w : World) : World :=
  {| gRPCMetricsMonitoringMap := gRPCMetricsMonitoringMap w;
     gRPCTracesMonitoringMap := gRPCTracesMonitoringMap w;
     currentMonitoredConsumer := currentMonitoredConsumer w;
     heap := heap w; logs := logs w; history := history w ++ [e] |}.

(** ** The monad of package code: state, and [None] for a panic *)

Definition M (A : Type) : Type := World -> option (A * World).

Definition ret {A} (a : A) : M A := fun w => Some (a, w).

Definition bind {A B} (m : M A) (f : A -> M B) : M B :=
  fun w =>
    match m w with
    | Some (a, w') => f a w'
    | None => None
    end.

Definition panic {A} : M A := fun _ => None.

(** [defer d] in front of [body]: [d] runs when [body] has produced its
    result, and cannot change it (the results are unnamed). *)
Definition defer {A} (d : M unit) (body : M A) : M A :=
  fun w =>
    match body w with
    | Some (a, w') =>
        match d w' with
        | Some (_, w'') => Some (a, w'')
        | None => None
        end
    | None => None
    end.


Global Instance M_ret : MRet M := @ret.
Global Instance M_bind : MBind M := fun A B f m => bind m f.

(** *** Primitive effects *)

(** [m[id].Inc()] on the map of kind [k].  A key missing from a Go map
    yields the nil [*monitoring.Int], on which [Inc] panics. *)
Definition Inc (k : Kind) (id : ResultID) : M unit :=
  fun w =>
    match monitoringMap k w !! id with
    | Some v =>
        Some (tt, record (EvInc k id)
                    (set_monitoringMap k (<[id := Int_Inc v]> (monitoringMap k w)) w))
    | None => panic w
    end.

(** Dereferencing the receiver [c]. *)
Definition load (c : loc) : M monitoredConsumer :=
  fun w =>
    match heap w !! c with
    | Some mc => Some (mc, w)
    | None => panic w
    end.

(** [c.consumer.ConsumeTraces(ctx, traces)]: a transition of the
    [otel.Consumer] that [c] owns. *)
Definition consumer_ConsumeTraces (c : loc) (ctx : context_Context) (traces : pdata_Traces)
  : M (option error) :=
  fun w =>
    match heap w !! c with
    | Some mc =>
        let '(err, d) := otel_ConsumeTraces ctx traces (consumer mc) in
        Some (err, record (EvConsume Traces c err)
                     (set_heap (<[c := {| consumer := d; logger := logger mc |}]> (heap w)) w))
    | None => panic w
    end.

(** [c.consumer.ConsumeMetrics(ctx, metrics)]. *)
Definition consumer_ConsumeMetrics (c : loc) (ctx : context_Context) (metrics : pdata_Metrics)
  : M (option error) :=
  fun w =>
    match heap w !! c with
    | Some mc =>
        let '(err, d) := otel_ConsumeMetrics ctx metrics (consumer mc) in
        Some (err, record (EvConsume Metrics c err)
                     (set_heap (<[c := {| consumer := d; logger := logger mc |}]> (heap w)) w))
    | None => panic w
    end.

(** [l.Error(msg)]: one entry at error level with the logger's context. *)
Definition Logger_Error (l : Logger) (msg : string) : M unit :=
  fun w =>
    let e := {| entry_level := ErrorLevel; entry_message := msg;
                entry_fields := logger_context l |} in
    Some (tt, record (EvLog e) (add_log e w)).

(** ** [monitoredConsumer]'s methods *)

(** [ConsumeTraces], lines 82-92. *)
Definition ConsumeTraces (c : loc) (ctx : context_Context) (traces : pdata_Traces)
  : M (option error) :=
  Inc Traces IDRequestCount;;
  defer (Inc Traces IDResponseCount)
    (err ← consumer_ConsumeTraces c ctx traces;
     match err with
     | Some e =>
         Inc Traces IDResponseErrorsCount;;
         mc ← load c;
         Logger_Error (Logger_With (logger mc) (logp_Error e))
           "ConsumeTraces returned an error";;
         mret (Some e)
     | None =>
         Inc Traces IDResponseValidCount;;
         mret None
     end).

(** [ConsumeMetrics], lines 95-105. *)
Definition ConsumeMetrics (c : loc) (ctx : context_Context) (metrics : pdata_Metrics)
  : M (option error) :=
  Inc Metrics IDRequestCount;;
  defer (Inc Metrics IDResponseCount)
    (err ← consumer_ConsumeMetrics c ctx metrics;
     match err with
     | Some e =>
         Inc Metrics IDResponseErrorsCount;;
         mc ← load c;
         Logger_Error (Logger_With (logger mc) (logp_Error e))
           "ConsumeMetrics returned an error";;
         mret (Some e)
     | None =>
         Inc Metrics IDResponseValidCount;;
         mret None
     end).

(** The method [collectMetricsMonitoring], lines 107-115: what it sends
    to the visitor [V]. *)
Definition monitoredConsumer_collectMetricsMonitoring (c : loc) : M (list VisitorEvent) :=
  mc ← load c;
  let stats := otel_Stats (consumer mc) in
  mret ([OnRegistryStart; OnRegistryFinished]
          ++ ReportNamespace "consumer"
               (ReportInt "unsupported_dropped" (UnsupportedMetricsDropped stats))).

(** ** The current-instance slot *)

(** [setCurrentMonitoredConsumer], lines 122-126; [c] may be nil. *)
Definition setCurrentMonitoredConsumer (c : option loc) : M unit :=
  fun w => Some (tt, record (EvSetCurrent c) (set_current c w)).

(** The package-level [collectMetricsMonitoring], lines 128-135. *)
Definition collectMetricsMonitoring : M (list VisitorEvent) :=
  fun w =>
    match currentMonitoredConsumer w with
    | Some c => monitoredConsumer_collectMetricsMonitoring c w
    | None => Some ([], w)
    end.

(** ** Registration *)

(** [&monitoredConsumer{...}]: a fresh object at the end of the heap. *)
Definition new_monitoredConsumer (mc : monitoredConsumer) : M loc :=
  fun w => Some (length (heap w), set_heap (heap w ++ [mc]) w).

(** The two framework calls; the [*grpc.Server] they act on is passed
    along explicitly. *)
Definition RegisterTraceReceiver (ctx : context_Context) (r : Receiver) (srv : grpc_Server)
  : M (option error * grpc_Server) :=
  fun w =>
    Some (otlpreceiver_RegisterTraceReceiver ctx r srv, record (EvRegisterTraceReceiver r) w).

Definition RegisterMetricsReceiver (ctx : context_Context) (r : Receiver) (srv : grpc_Server)
  : M (option error * grpc_Server) :=
  fun w =>
    Some (otlpreceiver_RegisterMetricsReceiver ctx r srv, record (EvRegisterMetricsReceiver r) w).

(** [RegisterGRPCServices], lines 54-74.  The result pairs the returned
    error with the server as the framework left it. *)
Definition RegisterGRPCServices
  (grpcServer : grpc_Server) (processor : BatchProcessor) (logger : Logger)
  : M (option error * grpc_Server) :=
  consumer ← new_monitoredConsumer
               {| consumer := otel_Consumer processor; logger := logger |};
  setCurrentMonitoredConsumer (Some consumer);;
  let traceReceiver := trace_New "otlp" consumer in
  let metricsReceiver := metrics_New "otlp" consumer in
  '(err, grpcServer) ← RegisterTraceReceiver context_Background traceReceiver grpcServer;
  match err with
  | Some _ => mret (errors_Wrap err "failed to register OTLP trace receiver", grpcServer)
  | None =>
      '(err, grpcServer) ←
        RegisterMetricsReceiver context_Background metricsReceiver grpcServer;
      match err with
      | Some _ =>
          mret (errors_Wrap err "failed to register OTLP metrics receiver", grpcServer)
      | None => mret (None, grpcServer)
      end
  end.

(** ** Monitoring registries and package initialisation *)

(** [monitoring.Mode]: [Reported] < [Full]. *)
Inductive Mode := Reported | Full.

Definition Mode_gt (a b : Mode) : bool :=
  match a, b with
  | Full, Reported => true
  | _, _ => false
  end.

(** A variable of a registry: a counter, or a callback.  A registry's
    counter is the very [*monitoring.Int] that one of the two package-level
    maps holds: [VarInt k id] is the counter under [id] of the map of kind
    [k]. *)
Inductive Var :=
| VarInt (k : Kind) (id : ResultID)
| VarFunc (f : M (list VisitorEvent)).

Record Entry := {
  entry_name : string;
  entry_var : Var;
  entry_mode : Mode;
}.

(** A registry keeps its entries in a Go map; [entries] lists them, and in
    what order a range over the map yields them is not determined. *)
Record Registry := {
  registry_name : string;
  entries : list Entry;
}.

(** [monitoring.Default.NewRegistry(name)]. *)
Definition NewRegistry (name : string) : Registry :=
  {| registry_name := name; entries := [] |}.

(** [monitoring.NewFunc(r, name, f, monitoring.Report)]. *)
Definition NewFunc (r : Registry) (name : string) (f : M (list VisitorEvent)) (mode : Mode)
  : Registry :=
  {| registry_name := registry_name r;
     entries := entries r ++ [{| entry_name := name; entry_var := VarFunc f;
                                 entry_mode := mode |}] |}.

(** Modelled from the spec: the string values of [request.ResultID]
    (declared in beater/request, which is not part of this file) are the
    counter names of the spec's section 6. *)
Definition ResultID_name (id : ResultID) : string :=
  match id with
  | IDRequestCount => "request_count"
  | IDResponseCount => "response_count"
  | IDResponseErrorsCount => "response_errors_count"
  | IDResponseValidCount => "response_valid_count"
  end.

(** Modelled from the spec: [request.MonitoringMapForRegistry] (declared
    in beater/request, which is not part of this file) creates one counter
    per result-id in the registry, starting at zero at process start, and
    returns the map from result-id to counter.  The counters it puts in
    the registry and the counters of the map it returns are the same
    objects; [k] is the package-level map the result is assigned to, where
    those counters live from then on. *)
Definition MonitoringMapForRegistry (k : Kind) (r : Registry) (ids : list ResultID)
  : Registry * gmap ResultID Z :=
  foldl (fun '(r, m) id =>
           ({| registry_name := registry_name r;
               entries := entries r ++ [{| entry_name := ResultID_name id;
                                           entry_var := VarInt k id;
                                           entry_mode := Full |}] |},
            <[id := 0%Z]> m))
        (r, ∅) ids.

(** Lines 43-46, then [init] (lines 49-51), which adds the callback to the
    metrics registry only.  Line 44 assigns to [gRPCMetricsMonitoringMap]
    what [MonitoringMapForRegistry] makes of the metrics registry, line 46
    to [gRPCTracesMonitoringMap] what it makes of the traces registry. *)
Definition gRPCMetricsRegistry : Registry :=
  NewFunc
    (MonitoringMapForRegistry Metrics
       (NewRegistry "apm-server.otlp.grpc.metrics") monitoringKeys).1
    "consumer" collectMetricsMonitoring Reported.

Definition gRPCTracesRegistry : Registry :=
  (MonitoringMapForRegistry Traces
     (NewRegistry "apm-server.otlp.grpc.traces") monitoringKeys).1.

(** The state of the package once it is initialised. *)
Definition initial_World : World :=
  {| gRPCMetricsMonitoringMap :=
       (MonitoringMapForRegistry Metrics
          (NewRegistry "apm-server.otlp.grpc.metrics") monitoringKeys).2;
     gRPCTracesMonitoringMap :=
       (MonitoringMapForRegistry Traces
          (NewRegistry "apm-server.otlp.grpc.traces") monitoringKeys).2;
     currentMonitoredConsumer := None;
     heap := [];
     logs := [];
     history := [] |}.

(** Visiting a variable: a counter reports its value, a callback runs. *)
Definition Var_Visit (v : Var) : M (list VisitorEvent) :=
  match v with
  | VarInt k id =>
      fun w =>
        match monitoringMap k w !! id with
        | Some n => Some ([OnInt n], w)
        | None => None
        end
  | VarFunc f => f
  end.

(** The body of the loop of a visit in mode [mode], over the entries in
    the order the range yields them: every entry that the mode admits is
    announced by its key and then visited. *)
Fixpoint visit_entries (mode : Mode) (es : list Entry) : M (list VisitorEvent) :=
  match es with
  | [] => mret []
  | e :: es =>
      if Mode_gt (entry_mode e) mode then visit_entries mode es
      else
        evs ← Var_Visit (entry_var e);
        rest ← visit_entries mode es;
        mret (OnKey (entry_name e) :: evs ++ rest)
  end.

(** A visit of a registry in mode [mode], when the range over its entries
    yields them in the order [order]. *)
Definition Registry_Visit (mode : Mode) (order : list Entry) : M (list VisitorEvent) :=
  evs ← visit_entries mode order;
  mret ([OnRegistryStart] ++ evs ++ [OnRegistryFinished]).

(** The orders a range over the entries of [r] can yield: each entry once,
    in any order. *)
Definition range_of (r : Registry) (order : list Entry) : Prop :=
  order ≡ₚ entries r.

(** ** Sequences of calls *)

(** One inbound call of the RPC framework on a registered consumer. *)
Inductive Call :=
| CallTraces (c : loc) (ctx : context_Context) (traces : pdata_Traces)
| CallMetrics (c : loc) (ctx : context_Context) (metrics : pdata_Metrics).

Definition call_kind (c : Call) : Kind :=
  match c with
  | CallTraces _ _ _ => Traces
  | CallMetrics _ _ _ => Metrics
  end.

Definition call_consumer (c : Call) : loc :=
  match c with
  | CallTraces c _ _ => c
  | CallMetrics c _ _ => c
  end.

Definition do_call (c : Call) : M (option error) :=
  match c with
  | CallTraces c ctx traces => ConsumeTraces c ctx traces
  | CallMetrics c ctx metrics => ConsumeMetrics c ctx metrics
  end.

(** The calls run to completion one after the other. *)
Fixpoint run_calls (cs : list Call) : M (list (option error)) :=
  match cs with
  | [] => mret []
  | c :: cs =>
      r ← do_call c;
      rs ← run_calls cs;
      mret (r :: rs)
  end.

(** Number of calls of kind [k] in a sequence. *)
Definition calls_of (k : Kind) (cs : list Call) : nat :=
  length (filter (fun c => call_kind c = k) cs).

(** What a stretch of history says about the downstream consumer: how
    often its kind-[k] operation was invoked and failed, or succeeded. *)
Definition is_failure (k : Kind) (e : Event) : bool :=
  match e with
  | EvConsume k' _ (Some _) => bool_decide (k' = k)
  | _ => false
  end.

Definition is_success (k : Kind) (e : Event) : bool :=
  match e with
  | EvConsume k' _ None => bool_decide (k' = k)
  | _ => false
  end.

Definition is_inc (k : Kind) (id : ResultID) (e : Event) : bool :=
  match e with
  | EvInc k' id' => bool_decide (k' = k) && bool_decide (id' = id)
  | _ => false
  end.

Definition count (p : Event -> bool) (h : list Event) : nat :=
  length (List.filter p h).

Definition failures (k : Kind) (h : list Event) : nat := count (is_failure k) h.
Definition successes (k : Kind) (h : list Event) : nat := count (is_success k) h.

(** A map holds a counter under each of [monitoringKeys]; a world is
    well formed when both of its maps do, as they do once the package is
    initialised. *)
Definition has_keys (m : gmap ResultID Z) : bool :=
  forallb (fun id => bool_decide (is_Some (m !! id))) monitoringKeys.

Definition wf (w : World) : Prop :=
  has_keys (gRPCTracesMonitoringMap w) && has_keys (gRPCMetricsMonitoringMap w) = true.

(** The entry that [l.With(logp.Error(e)).Error(msg)] writes. *)
Definition error_entry (l : Logger) (msg : string) (e : error) : LogEntry :=
  {| entry_level := ErrorLevel; entry_message := msg;
     entry_fields := logger_context l ++ [logp_Error e] |}.

Definition call_logs (l : Logger) (msg : string) (err : option error) : list LogEntry :=
  match err with
  | Some e => [error_entry l msg e]
  | None => []
  end.

(** The events of one call of kind [k] on consumer [c] whose downstream
    invocation returned [err], logging through [l]. *)
Definition call_events (k : Kind) (c : loc) (l : Logger) (msg : string) (err : option error)
  : list Event :=
  match err with
  | Some e =>
      [EvInc k IDRequestCount; EvConsume k c err; EvInc k IDResponseErrorsCount;
       EvLog (error_entry l msg e); EvInc k IDResponseCount]
  | None =>
      [EvInc k IDRequestCount; EvConsume k c err; EvInc k IDResponseValidCount;
       EvInc k IDResponseCount]
  end.

(** The counters as a function of the increments in a stretch of
    history: each [EvInc k id] bumps the counter under [id] of map [k]. *)
Definition inc_counter (id : ResultID) (m : gmap ResultID Z) : gmap ResultID Z :=
  match m !! id with
  | Some v => <[id := Int_Inc v]> m
  | None => m
  end.

Definition replay_event (k : Kind) (m : gmap ResultID Z) (e : Event) : gmap ResultID Z :=
  match e with
  | EvInc k' id => if decide (k' = k) then inc_counter id m else m
  | _ => m
  end.

Definition replay (k : Kind) (h : list Event) (m : gmap ResultID Z) : gmap ResultID Z :=
  foldl (replay_event k) m h.

(** The counter that records the outcome of the downstream invocation. *)
Definition outcome_id (err : option error) : ResultID :=
  match err with
  | Some _ => IDResponseErrorsCount
  | None => IDResponseValidCount
  end.

(** A stretch of history [h] accounts for the calls [cs]: per kind, one
    request and one response increment per call, one error increment per
    downstream failure and one valid increment per downstream success. *)
Definition tallied (cs : list Call) (h : list Event) : Prop :=
  forall k,
    count (is_inc k IDRequestCount) h = calls_of k cs
    /\ count (is_inc k IDResponseCount) h = calls_of k cs
    /\ count (is_inc k IDResponseErrorsCount) h = failures k h
    /\ count (is_inc k IDResponseValidCount) h = successes k h
    /\ failures k h + successes k h = calls_of k cs.

(** The downstream answers recorded in a stretch of history. *)
Definition outcomes (h : list Event) : list (option error) :=
  omap (fun e => match e with EvConsume _ _ err => Some err | _ => None end) h.

(** The slot holds nil or a pointer to an allocated object. *)
Definition slot_allocated (w : World) : Prop :=
  match currentMonitoredConsumer w with
  | Some c => c < length (heap w)
  | None => True
  end.

(** What the method [collectMetricsMonitoring] sends to the visitor for
    a downstream snapshot [stats]. *)
Definition consumer_report (stats : ConsumerStats) : list VisitorEvent :=
  [OnRegistryStart; OnRegistryFinished;
   OnKey "consumer"; OnRegistryStart;
   OnKey "unsupported_dropped"; OnInt (UnsupportedMetricsDropped stats);
   OnRegistryFinished].

(** The error a run of [RegisterGRPCServices] returned. *)
Definition returned_error {G : Type} (r : option (option error * G * World)) : option error :=
  match r with
  | Some (err, _, _) => err
  | None => None
  end.

(** The registry entry of the counter that the map of kind [k] holds
    under a result-id. *)
Definition counter_entry (k : Kind) (id : ResultID) : Entry :=
  {| entry_name := ResultID_name id; entry_var := VarInt k id; entry_mode := Full |}.

(** The entry that [init] adds to the metrics registry. *)
Definition consumer_entry : Entry :=
  {| entry_name := "consumer"; entry_var := VarFunc collectMetricsMonitoring;
     entry_mode := Reported |}.

(** What the counter under [id] of a group reads after [n] calls of which
    [k] failed downstream. *)
Definition expected_count (n k : nat) (id : ResultID) : Z :=
  match id with
  | IDRequestCount => Z.of_nat n
  | IDResponseCount => Z.of_nat n
  | IDResponseErrorsCount => Z.of_nat k
  | IDResponseValidCount => Z.of_nat (n - k)
  end.

(** What a visitor receives for the counter of [id] in the map of kind
    [k]. *)
Definition counter_events (k : Kind) (w : World) (id : ResultID) : list VisitorEvent :=
  [OnKey (ResultID_name id); OnInt (default 0%Z (monitoringMap k w !! id))].

(** A computation that, when it returns, leaves the map of kind [k] as it
    found it. *)
Definition preserves (k : Kind) {A : Type} (m : M A) : Prop :=
  forall w a w', m w = Some (a, w') -> monitoringMap k w' = monitoringMap k w.

(** What one call on consumer [c] (the object [mc]) does to the world,
    when the downstream invocation answers [r]. *)
Definition call_post (k : Kind) (c : loc) (mc : monitoredConsumer) (msg : string)
  (r : option error * otelConsumer) (w w' : World) : Prop :=
  (forall k', monitoringMap k' w'
              = replay k' (call_events k c (logger mc) msg r.1) (monitoringMap k' w))
  /\ currentMonitoredConsumer w' = currentMonitoredConsumer w
  /\ heap w' = <[c := {| consumer := r.2; logger := logger mc |}]> (heap w)
  /\ logs w' = logs w ++ call_logs (logger mc) msg r.1
  /\ history w' = history w ++ call_events k c (logger mc) msg r.1.

(** ** Further vocabulary for the properties of the methods *)

(** What the downstream consumer in state [d] answers to a call. *)
Definition call_answer (c : Call) (d : otelConsumer) : option error * otelConsumer :=
  match c with
  | CallTraces _ ctx traces => otel_ConsumeTraces ctx traces d
  | CallMetrics _ ctx metrics => otel_ConsumeMetrics ctx metrics d
  end.

(** The message a method logs when its downstream invocation fails. *)
Definition call_message (c : Call) : string :=
  match c with
  | CallTraces _ _ _ => "ConsumeTraces returned an error"
  | CallMetrics _ _ _ => "ConsumeMetrics returned an error"
  end.

(** The counters a call increments, given what the downstream invocation
    returned. *)
Definition incremented (err : option error) (id : ResultID) : bool :=
  match id, err with
  | IDRequestCount, _ => true
  | IDResponseCount, _ => true
  | IDResponseErrorsCount, Some _ => true
  | IDResponseErrorsCount, None => false
  | IDResponseValidCount, Some _ => false
  | IDResponseValidCount, None => true
  end.

(** The group of kind [k] is balanced: as many requests as responses, and
    the responses are the errors plus the valid ones, in 64-bit
    arithmetic. *)
Definition balanced (k : Kind) (w : World) : Prop :=
  exists req resp errs valid : Z,
    monitoringMap k w !! IDRequestCount = Some req
    /\ monitoringMap k w !! IDResponseCount = Some resp
    /\ monitoringMap k w !! IDResponseErrorsCount = Some errs
    /\ monitoringMap k w !! IDResponseValidCount = Some valid
    /\ req = resp
    /\ resp = int64_wrap (errs + valid).

(** The log entries recorded in a stretch of history. *)
Definition logged (h : list Event) : list LogEntry :=
  omap (fun e => match e with EvLog l => Some l | _ => None end) h.

(** The framework error that makes [RegisterGRPCServices] fail on server
    [srv] when the new consumer is [c]: the trace registration's, or else
    the metrics registration's. *)
Definition registration_failure (c : loc) (srv : grpc_Server) : option error :=
  let t := otlpreceiver_RegisterTraceReceiver context_Background (trace_New "otlp" c) srv in
  match t.1 with
  | Some e => Some e
  | None =>
      (otlpreceiver_RegisterMetricsReceiver context_Background (metrics_New "otlp" c) t.2).1
  end.

(** ** Runs of the package

    What the rest of the server does with this package: it registers
    services, the receivers deliver calls to registered consumers, and the
    monitoring registry polls the callback. *)
Inductive Op :=
| OpRegister (grpcServer : grpc_Server) (processor : BatchProcessor) (logger : Logger)
| OpCall (c : Call)
| OpCollect.

Definition run_op (op : Op) : M unit :=
  match op with
  | OpRegister grpcServer processor logger =>
      RegisterGRPCServices grpcServer processor logger;; mret tt
  | OpCall c => do_call c;; mret tt
  | OpCollect => collectMetricsMonitoring;; mret tt
  end.

Fixpoint run_ops (ops : list Op) : M unit :=
  match ops with
  | [] => mret tt
  | op :: ops => run_op op;; run_ops ops
  end.

(** Every call of the run is delivered to a consumer that exists by then,
    [n] objects being allocated when the run starts. *)
Fixpoint calls_allocated (n : nat) (ops : list Op) : bool :=
  match ops with
  | [] => true
  | OpRegister _ _ _ :: ops => calls_allocated (S n) ops
  | OpCall c :: ops => Nat.ltb (call_consumer c) n && calls_allocated n ops
  | OpCollect :: ops => calls_allocated n ops
  end.

Definition is_register (op : Op) : bool :=
  match op with
  | OpRegister _ _ _ => true
  | _ => false
  end.

Definition is_collect (op : Op) : bool :=
  match op with
  | OpCollect => true
  | _ => false
  end.

Definition registrations (ops : list Op) : nat := length (List.filter is_register ops).

Definition without_collect (ops : list Op) : list Op :=
  List.filter (fun op => negb (is_collect op)) ops.

(** The calls of a run, in order. *)
Definition calls_in (ops : list Op) : list Call :=
  omap (fun op => match op with OpCall c => Some c | _ => None end) ops.

(** An event that is neither an increment, nor a downstream invocation,
    nor a log entry. *)
Definition quiet (e : Event) : bool :=
  match e with
  | EvSetCurrent _ | EvRegisterTraceReceiver _ | EvRegisterMetricsReceiver _ => true
  | _ => false
  end.

End Adapter.

(** ** A scripted instance of the collaborators

    A small processor with a capacity: a payload larger than the capacity
    is refused, a cancelled context is reported as such, and metrics
    payloads count their unsupported items.  The framework refuses a
    service that is already registered on the server. *)

Module Fake.

Inductive ctx := Live | Cancelled.

Record state := { capacity : nat; dropped : Z }.

Definition consume_traces (c : ctx) (n : nat) (s : state) : option error * state :=
  match c with
  | Cancelled => (Some (errorString "context canceled"), s)
  | Live =>
      if Nat.leb n (capacity s) then (None, s)
      else (Some (errorString "queue is full"), s)
  end.

Definition consume_metrics (c : ctx) (n : nat) (s : state) : option error * state :=
  match c with
  | Cancelled => (Some (errorString "context canceled"), s)
  | Live =>
      if Nat.leb n (capacity s)
      then (None, {| capacity := capacity s; dropped := (dropped s + Z.of_nat n)%Z |})
      else (Some (errorString "queue is full"), s)
  end.

Definition downstream : Downstream := {|
  context_Context := ctx;
  context_Background := Live;
  pdata_Traces := nat;
  pdata_Metrics := nat;
  BatchProcessor := nat;
  otelConsumer := state;
  otel_Consumer := fun p => {| capacity := p; dropped := 0 |};
  otel_ConsumeTraces := consume_traces;
  otel_ConsumeMetrics := consume_metrics;
  otel_Stats := fun s => {| UnsupportedMetricsDropped := dropped s |};
|}.

(** The server is the list of service names registered on it. *)
Definition register (name : string) (srv : list string) : option error * list string :=
  if bool_decide (name ∈ srv)
  then (Some (errorString ("duplicate service registration for " +:+ name)), srv)
  else (None, srv ++ [name]).

Definition framework : @Framework downstream := {|
  grpc_Server := list string;
  otlpreceiver_RegisterTraceReceiver := fun _ _ srv => register "TraceService" srv;
  otlpreceiver_RegisterMetricsReceiver := fun _ _ srv => register "MetricsService" srv;
|}.

Definition stdlog : Logger := {| logger_context := [] |}.

(** The world after one registration on a fresh server. *)
Definition registered : option ((option error * list string) * World (DS := downstream)) :=
  RegisterGRPCServices (FW := framework) [] 5 stdlog (initial_World (DS := downstream)).

Definition world1 : World (DS := downstream) :=
  match registered with
  | Some (_, w) => w
  | None => initial_World
  end.

(** A second registration, on the same server: both services are taken. *)
Definition world2 : World (DS := downstream) :=
  match RegisterGRPCServices (FW := framework)
          ["TraceService"; "MetricsService"] 7 stdlog world1 with
  | Some (_, w) => w
  | None => world1
  end.

(** Three trace calls and two metrics calls on the registered consumer:
    one of each kind fails. *)
Definition calls : list (Call (DS := downstream)) :=
  [CallTraces (DS := downstream) 0 Live 3;
   CallTraces (DS := downstream) 0 Live 9;
   CallMetrics (DS := downstream) 0 Cancelled 1;
   CallTraces (DS := downstream) 0 Live 1;
   CallMetrics (DS := downstream) 0 Live 2].

Definition consumer0 : monitoredConsumer (DS := downstream) :=
  {| consumer := ({| capacity := 5; dropped := 0 |} : otelConsumer (Downstream := downstream));
     logger := stdlog |}.

Definition consumer1 : monitoredConsumer (DS := downstream) :=
  {| consumer := ({| capacity := 7; dropped := 0 |} : otelConsumer (Downstream := downstream));
     logger := stdlog |}.

(** Calls used as examples: a trace payload over the capacity, a metrics
    payload within it, each on one of the two consumers. *)
Definition refused_traces : Call (DS := downstream) :=
  CallTraces (DS := downstream) 0 Live 9.

Definition accepted_metrics : Call (DS := downstream) :=
  CallMetrics (DS := downstream) 0 Live 2.

Definition accepted_metrics1 : Call (DS := downstream) :=
  CallMetrics (DS := downstream) 1 Live 2.

Definition cancelled_traces : Call (DS := downstream) :=
  CallTraces (DS := downstream) 0 Cancelled 1.

Definition refused_metrics : Call (DS := downstream) :=
  CallMetrics (DS := downstream) 0 Live 9.

(** A run from process start: polls, two registrations and calls on the
    consumers they create. *)
Definition ops : list (Op (FW := framework)) :=
  [OpCollect (FW := framework);
   OpRegister (FW := framework) [] 5 stdlog;
   OpCall (FW := framework) refused_traces;
   OpCollect (FW := framework);
   OpRegister (FW := framework) ["TraceService"; "MetricsService"] 7 stdlog;
   OpCall (FW := framework) accepted_metrics1;
   OpCall (FW := framework) accepted_metrics;
   OpCollect (FW := framework)].

(** The world in which the run [ops] from process start ends. *)
Definition world_after_ops : World (DS := downstream) :=
  match run_ops ops (initial_World (DS := downstream)) with
  | Some (_, w) => w
  | None => initial_World
  end.

(** Two orders in which the registries can be ranged over, neither the
    order of registration: the traces registry backwards, and the metrics
    registry with the callback first. *)
Definition traces_order : list (Entry (DS := downstream)) :=
  reverse (entries gRPCTracesRegistry).

Definition metrics_order : list (Entry (DS := downstream)) :=
  consumer_entry :: (counter_entry Metrics <$> monitoringKeys).

End Fake.

(** * Properties *)

Section Properties.
Context {DS : Downstream} {FW : Framework}.

(** ** Arithmetic of the wrapping counters *)

Lemma int64_wrap_id (z : Z) :
  (- 2 ^ 63 <= z <= max_int64)%Z -> int64_wrap z = z.
Proof.
  unfold int64_wrap, max_int64. intros Hz.
  rewrite Z.mod_small; lia.
Qed.

Lemma int64_wrap_add (a b : Z) :
  int64_wrap (int64_wrap a + b) = int64_wrap (a + b).
Proof.
  unfold int64_wrap. f_equal.
  replace (((a + 2 ^ 63) mod 2 ^ 64 - 2 ^ 63 + b + 2 ^ 63))%Z
    with (((a + 2 ^ 63) mod 2 ^ 64 + b))%Z by lia.
  rewrite Zplus_mod_idemp_l. f_equal. lia.
Qed.

(** ** Wrapped errors *)

Lemma errors_Wrap_Cause (e : error) (message : string) :
  errors_Cause <$> errors_Wrap (Some e) message = Some (errors_Cause e).
Proof. reflexivity. Qed.

Lemma errors_Wrap_Error (e : error) (message : string) :
  Error_string <$> errors_Wrap (Some e) message
  = Some (message +:+ ": " +:+ Error_string e).
Proof. reflexivity. Qed.

(** ** Reading the well-formedness of a world *)

Lemma has_keys_lookup (m : gmap ResultID Z) (id : ResultID) :
  has_keys m = true -> is_Some (m !! id).
Proof.
  unfold has_keys, monitoringKeys. cbn [forallb].
  rewrite !andb_true_iff, !bool_decide_eq_true.
  intros (H1 & H2 & H3 & H4 & _). destruct id; assumption.
Qed.

Lemma wf_lookup (w : World) (k : Kind) (id : ResultID) :
  wf w -> is_Some (monitoringMap k w !! id).
Proof.
  unfold wf. rewrite andb_true_iff. intros [Ht Hm].
  destruct k; cbn; apply has_keys_lookup; assumption.
Qed.

Lemma has_keys_intro (m : gmap ResultID Z) :
  (forall id, is_Some (m !! id)) -> has_keys m = true.
Proof.
  intros H. unfold has_keys, monitoringKeys. cbn [forallb].
  rewrite !andb_true_iff, !bool_decide_eq_true. auto.
Qed.

Lemma wf_intro (w : World) :
  (forall k id, is_Some (monitoringMap k w !! id)) -> wf w.
Proof.
  intros H. unfold wf. rewrite andb_true_iff. split; apply has_keys_intro.
  - intros id. apply (H Traces).
  - intros id. apply (H Metrics).
Qed.

(** ** One increment *)

Lemma Inc_eq (k : Kind) (id : ResultID) (w : World) (v : Z) :
  monitoringMap k w !! id = Some v ->
  Inc k id w
  = Some (tt, record (EvInc k id)
                (set_monitoringMap k (<[id := Int_Inc v]> (monitoringMap k w)) w)).
Proof. intros Hv. unfold Inc. rewrite Hv. reflexivity. Qed.

Lemma monitoringMap_set_same (k : Kind) (m : gmap ResultID Z) (w : World) :
  monitoringMap k (set_monitoringMap k m w) = m.
Proof. destruct k; reflexivity. Qed.

Lemma monitoringMap_set_other (k k' : Kind) (m : gmap ResultID Z) (w : World) :
  k' <> k -> monitoringMap k' (set_monitoringMap k m w) = monitoringMap k' w.
Proof. destruct k, k'; intros Hne; try reflexivity; congruence. Qed.

Lemma monitoringMap_record (k : Kind) (e : Event) (w : World) :
  monitoringMap k (record e w) = monitoringMap k w.
Proof. destruct k; reflexivity. Qed.

Lemma monitoringMap_set_heap (k : Kind) (h : list monitoredConsumer) (w : World) :
  monitoringMap k (set_heap h w) = monitoringMap k w.
Proof. destruct k; reflexivity. Qed.

Lemma monitoringMap_add_log (k : Kind) (l : LogEntry) (w : World) :
  monitoringMap k (add_log l w) = monitoringMap k w.
Proof. destruct k; reflexivity. Qed.

Lemma monitoringMap_set_current (k : Kind) (c : option loc) (w : World) :
  monitoringMap k (set_current c w) = monitoringMap k w.
Proof. destruct k; reflexivity. Qed.

Lemma inc_counter_lookup (id id' : ResultID) (m : gmap ResultID Z) :
  inc_counter id m !! id'
  = (if decide (id = id') then Int_Inc <$> m !! id' else m !! id').
Proof.
  unfold inc_counter. destruct (m !! id) as [v|] eqn:Hv.
  - rewrite lookup_insert. destruct (decide (id = id')) as [<-|]; [|reflexivity].
    rewrite Hv. reflexivity.
  - destruct (decide (id = id')) as [<-|]; [|reflexivity].
    rewrite Hv. reflexivity.
Qed.

Lemma inc_counter_is_Some (id id' : ResultID) (m : gmap ResultID Z) :
  is_Some (inc_counter id m !! id') <-> is_Some (m !! id').
Proof.
  rewrite inc_counter_lookup. destruct (decide (id = id')); [|reflexivity].
  rewrite fmap_is_Some. reflexivity.
Qed.

Lemma replay_is_Some (k : Kind) (h : list Event) (m : gmap ResultID Z) (id : ResultID) :
  is_Some (replay k h m !! id) <-> is_Some (m !! id).
Proof.
  unfold replay. revert m. induction h as [|e h IH]; intros m; [reflexivity|].
  cbn [foldl]. rewrite IH. destruct e; cbn; try reflexivity.
  destruct (decide (k0 = k)); [apply inc_counter_is_Some | reflexivity].
Qed.

Lemma replay_app (k : Kind) (h1 h2 : list Event) (m : gmap ResultID Z) :
  replay k (h1 ++ h2) m = replay k h2 (replay k h1 m).
Proof. unfold replay. apply foldl_app. Qed.

Lemma replay_nil (k : Kind) (m : gmap ResultID Z) : replay k [] m = m.
Proof. reflexivity. Qed.

Lemma replay_inc_same (k : Kind) (id : ResultID) (h : list Event) (m : gmap ResultID Z) :
  replay k (EvInc k id :: h) m = replay k h (inc_counter id m).
Proof.
  unfold replay. cbn [foldl replay_event].
  rewrite decide_True by reflexivity. reflexivity.
Qed.

Lemma replay_inc_other (k k' : Kind) (id : ResultID) (h : list Event) (m : gmap ResultID Z) :
  k' <> k -> replay k (EvInc k' id :: h) m = replay k h m.
Proof.
  intros Hne. unfold replay. cbn [foldl replay_event].
  rewrite decide_False by assumption. reflexivity.
Qed.

Lemma replay_consume (k k' : Kind) (c : loc) (err : option error) (h : list Event)
  (m : gmap ResultID Z) :
  replay k (EvConsume k' c err :: h) m = replay k h m.
Proof. reflexivity. Qed.

Lemma replay_log (k : Kind) (l : LogEntry) (h : list Event) (m : gmap ResultID Z) :
  replay k (EvLog l :: h) m = replay k h m.
Proof. reflexivity. Qed.

Lemma inc_counter_Some (id : ResultID) (m : gmap ResultID Z) (v : Z) :
  m !! id = Some v -> inc_counter id m = <[id := Int_Inc v]> m.
Proof. intros Hv. unfold inc_counter. rewrite Hv. reflexivity. Qed.

Ltac world_simpl :=
  cbn [monitoringMap set_monitoringMap set_heap set_current add_log record
       gRPCMetricsMonitoringMap gRPCTracesMonitoringMap currentMonitoredConsumer
       heap logs history] in *.

Ltac lookup_step :=
  rewrite ?lookup_insert_eq; rewrite ?lookup_insert_ne by discriminate;
  match goal with
  | H : ?m !! ?id = Some _ |- context [?m !! ?id] => rewrite H
  | _ => idtac
  end.

Ltac inc_step := unfold Inc at 1; world_simpl; lookup_step.

Ltac replay_step :=
  first
    [ rewrite replay_inc_same;
      erewrite inc_counter_Some
        by (rewrite ?lookup_insert_eq; rewrite ?lookup_insert_ne by discriminate;
            eassumption)
    | rewrite replay_inc_other by discriminate
    | rewrite replay_consume
    | rewrite replay_log
    | rewrite replay_nil ].

Ltac call_post_tac Hc :=
  unfold mret, M_ret, ret; inc_step;
  eexists; split; [reflexivity|];
  unfold call_post; cbn [fst snd logger call_logs call_events];
  repeat split;
  [ intros []; repeat replay_step; world_simpl; reflexivity
  | world_simpl; rewrite <- ?app_assoc, ?app_nil_r; reflexivity .. ].

Ltac consume_tac K Hwf Hc :=
  let v1 := fresh "v" in let H1 := fresh "Hv" in
  let v2 := fresh "v" in let H2 := fresh "Hv" in
  let v3 := fresh "v" in let H3 := fresh "Hv" in
  let v4 := fresh "v" in let H4 := fresh "Hv" in
  destruct (wf_lookup _ K IDRequestCount Hwf) as [v1 H1];
  destruct (wf_lookup _ K IDResponseCount Hwf) as [v2 H2];
  destruct (wf_lookup _ K IDResponseErrorsCount Hwf) as [v3 H3];
  destruct (wf_lookup _ K IDResponseValidCount Hwf) as [v4 H4];
  unfold ConsumeTraces, ConsumeMetrics, mbind, M_bind, bind, defer;
  inc_step;
  unfold consumer_ConsumeTraces, consumer_ConsumeMetrics; world_simpl; rewrite Hc;
  match goal with
  | |- context [let '(_, _) := ?r in _] => destruct r as [[?e|] ?d]
  end;
  [ inc_step; unfold load; world_simpl;
    rewrite list_lookup_insert_eq by (eapply lookup_lt_Some; exact Hc);
    unfold Logger_Error; world_simpl;
    call_post_tac Hc
  | inc_step; call_post_tac Hc ].

Lemma ConsumeTraces_spec (w : World) (c : loc) (ctx : context_Context)
  (traces : pdata_Traces) (mc : monitoredConsumer) :
  wf w -> heap w !! c = Some mc ->
  exists w',
    ConsumeTraces c ctx traces w
    = Some ((otel_ConsumeTraces ctx traces (consumer mc)).1, w')
    /\ call_post Traces c mc "ConsumeTraces returned an error"
         (otel_ConsumeTraces ctx traces (consumer mc)) w w'.
Proof. intros Hwf Hc. consume_tac Traces Hwf Hc. Qed.

Lemma ConsumeMetrics_spec (w : World) (c : loc) (ctx : context_Context)
  (metrics : pdata_Metrics) (mc : monitoredConsumer) :
  wf w -> heap w !! c = Some mc ->
  exists w',
    ConsumeMetrics c ctx metrics w
    = Some ((otel_ConsumeMetrics ctx metrics (consumer mc)).1, w')
    /\ call_post Metrics c mc "ConsumeMetrics returned an error"
         (otel_ConsumeMetrics ctx metrics (consumer mc)) w w'.
Proof. intros Hwf Hc. consume_tac Metrics Hwf Hc. Qed.

(** ** Consequences of one call *)

Lemma call_post_wf (k : Kind) (c : loc) (mc : monitoredConsumer) (msg : string)
  (r : option error * otelConsumer) (w w' : World) :
  wf w -> call_post k c mc msg r w w' -> wf w'.
Proof.
  intros Hwf (Hmaps & _). apply wf_intro. intros k' id.
  rewrite Hmaps, replay_is_Some. apply wf_lookup, Hwf.
Qed.

Lemma call_post_heap_length (k : Kind) (c : loc) (mc : monitoredConsumer) (msg : string)
  (r : option error * otelConsumer) (w w' : World) :
  call_post k c mc msg r w w' -> length (heap w') = length (heap w).
Proof. intros (_ & _ & Hheap & _). rewrite Hheap. apply length_insert. Qed.

Lemma replay_other_kind (k k' : Kind) (c : loc) (l : Logger) (msg : string)
  (err : option error) (m : gmap ResultID Z) :
  k' <> k -> replay k' (call_events k c l msg err) m = m.
Proof.
  intros Hne. destruct err; unfold call_events;
    repeat first [ rewrite replay_inc_other by congruence
                 | rewrite replay_consume | rewrite replay_log ];
    apply replay_nil.
Qed.

(** The shape of a call's events, in the order they happen. *)
Lemma call_events_order (k : Kind) (c : loc) (l : Logger) (msg : string)
  (err : option error) :
  call_events k c l msg err
  = [EvInc k IDRequestCount; EvConsume k c err;
     EvInc k (outcome_id err)]
    ++ (EvLog <$> call_logs l msg err) ++ [EvInc k IDResponseCount].
Proof. destruct err; reflexivity. Qed.

(** ** Sequences of calls *)

Lemma count_app (p : Event -> bool) (h1 h2 : list Event) :
  count p (h1 ++ h2) = count p h1 + count p h2.
Proof. unfold count. rewrite List.filter_app, length_app. reflexivity. Qed.

Lemma calls_of_cons (k : Kind) (c : Call) (cs : list Call) :
  calls_of k (c :: cs)
  = (if decide (call_kind c = k) then 1 else 0) + calls_of k cs.
Proof.
  unfold calls_of. rewrite filter_cons.
  destruct (decide (call_kind c = k)); reflexivity.
Qed.

Lemma tallied_cons (c : Call) (cs : list Call) (l : Logger) (msg : string)
  (err : option error) (h : list Event) :
  tallied cs h ->
  tallied (c :: cs) (call_events (call_kind c) (call_consumer c) l msg err ++ h).
Proof.
  intros Ht k. destruct (Ht k) as (H1 & H2 & H3 & H4 & H5).
  unfold failures, successes in *.
  rewrite !count_app, calls_of_cons, H1, H2, H3, H4, <- H5.
  destruct err, k, (call_kind c); unfold count, call_events;
    cbv [List.filter is_inc is_failure is_success bool_decide decide decide_rel
         Kind_eq_dec ResultID_eq_dec Kind_rec Kind_rect ResultID_rec ResultID_rect
         andb length sumbool_rec sumbool_rect];
    lia.
Qed.

Lemma outcomes_app (h1 h2 : list Event) :
  outcomes (h1 ++ h2) = outcomes h1 ++ outcomes h2.
Proof. unfold outcomes. apply omap_app. Qed.

Lemma outcomes_call (k : Kind) (c : loc) (l : Logger) (msg : string) (err : option error) :
  outcomes (call_events k c l msg err) = [err].
Proof. destruct err; reflexivity. Qed.

Lemma do_call_spec (w : World) (c : Call) :
  wf w -> call_consumer c < length (heap w) ->
  exists (mc : monitoredConsumer) (msg : string) (r : option error * otelConsumer) (w' : World),
    do_call c w = Some (r.1, w')
    /\ call_post (call_kind c) (call_consumer c) mc msg r w w'.
Proof.
  intros Hwf Hlt. destruct (lookup_lt_is_Some_2 _ _ Hlt) as [mc Hmc].
  destruct c as [c ctx traces | c ctx metrics]; cbn in Hmc |- *.
  - destruct (ConsumeTraces_spec w c ctx traces mc Hwf Hmc) as (w' & Hrun & Hpost).
    eauto 10.
  - destruct (ConsumeMetrics_spec w c ctx metrics mc Hwf Hmc) as (w' & Hrun & Hpost).
    eauto 10.
Qed.

Lemma run_calls_spec (cs : list Call) (w : World) :
  wf w -> Forall (fun c => call_consumer c < length (heap w)) cs ->
  exists (rs : list (option error)) (w' : World) (h : list Event),
    run_calls cs w = Some (rs, w')
    /\ history w' = history w ++ h
    /\ rs = outcomes h
    /\ (forall k, monitoringMap k w' = replay k h (monitoringMap k w))
    /\ tallied cs h.
Proof.
  revert w. induction cs as [|c cs IH]; intros w Hwf Hall.
  - exists [], w, []. cbn. rewrite app_nil_r. split_and!; try reflexivity.
    intros k. split_and!; reflexivity.
  - inversion Hall as [|? ? Hc Hcs]; subst.
    destruct (do_call_spec w c Hwf Hc) as (mc & msg & r & w1 & Hrun & Hpost).
    pose proof (call_post_wf _ _ _ _ _ _ _ Hwf Hpost) as Hwf1.
    pose proof (call_post_heap_length _ _ _ _ _ _ _ Hpost) as Hlen.
    destruct Hpost as (Hmaps & _ & _ & _ & Hhist).
    destruct (IH w1 Hwf1) as (rs & w' & h & Hrs & Hh & Hout & Hm & Ht).
    { rewrite Hlen. exact Hcs. }
    exists (r.1 :: rs), w',
      (call_events (call_kind c) (call_consumer c) (logger mc) msg r.1 ++ h).
    cbn [run_calls]. unfold mbind, M_bind, bind. rewrite Hrun, Hrs.
    split_and!.
    + reflexivity.
    + rewrite Hh, Hhist, app_assoc. reflexivity.
    + rewrite outcomes_app, outcomes_call, Hout. reflexivity.
    + intros k. rewrite Hm, Hmaps, replay_app. reflexivity.
    + apply tallied_cons, Ht.
Qed.

(** ** Counters after a replay *)

Lemma int64_wrap_range (z : Z) : (- 2 ^ 63 <= int64_wrap z <= max_int64)%Z.
Proof.
  unfold int64_wrap, max_int64.
  pose proof (Z.mod_pos_bound (z + 2 ^ 63) (2 ^ 64) ltac:(lia)). lia.
Qed.

Lemma replay_lookup (k : Kind) (h : list Event) (m : gmap ResultID Z) (id : ResultID) (v : Z) :
  m !! id = Some v -> (- 2 ^ 63 <= v <= max_int64)%Z ->
  replay k h m !! id = Some (int64_wrap (v + Z.of_nat (count (is_inc k id) h))).
Proof.
  revert m v. induction h as [|e h IH]; intros m v Hv Hr.
  - cbn. rewrite Z.add_0_r, int64_wrap_id by assumption. exact Hv.
  - destruct e as [k' id'| | | | |]; try (apply (IH m v Hv Hr)).
    destruct (decide (k' = k)) as [->|Hk].
    + rewrite replay_inc_same. destruct (decide (id' = id)) as [->|Hid].
      * rewrite (IH (inc_counter id m) (Int_Inc v)).
        -- f_equal. unfold Int_Inc. rewrite int64_wrap_add. f_equal.
           unfold count. cbn [List.filter is_inc].
           rewrite !bool_decide_eq_true_2 by reflexivity. cbn [andb length]. lia.
        -- rewrite inc_counter_lookup, decide_True, Hv by reflexivity. reflexivity.
        -- apply int64_wrap_range.
      * rewrite (IH (inc_counter id' m) v).
        -- do 3 f_equal. unfold count. cbn [List.filter is_inc].
           rewrite (bool_decide_eq_false_2 (id' = id)) by assumption.
           rewrite andb_false_r. reflexivity.
        -- rewrite inc_counter_lookup, decide_False by assumption. exact Hv.
        -- exact Hr.
    + rewrite replay_inc_other by assumption. rewrite (IH m v Hv Hr).
      do 3 f_equal. unfold count. cbn [List.filter is_inc].
      rewrite (bool_decide_eq_false_2 (k' = k)) by assumption. reflexivity.
Qed.

Lemma initial_counters (k : Kind) (id : ResultID) :
  monitoringMap k initial_World !! id = Some 0%Z.
Proof. destruct k, id; reflexivity. Qed.

Lemma initial_World_wf : wf initial_World.
Proof. reflexivity. Qed.

(** ** The claims about the consume operations *)

(** Without a bound on the number of calls, each counter reads the count
    of its increments wrapped to 64 bits. *)
Lemma counters_after_calls_wrapping (w : World) (cs : list Call) :
  (forall k id, monitoringMap k w !! id = Some 0%Z) ->
  Forall (fun c => call_consumer c < length (heap w)) cs ->
  exists (rs : list (option error)) (w' : World) (h : list Event),
    run_calls cs w = Some (rs, w')
    /\ history w' = history w ++ h
    /\ rs = outcomes h
    /\ tallied cs h
    /\ forall k id,
         monitoringMap k w' !! id
         = Some (int64_wrap (Z.of_nat (count (is_inc k id) h))).
Proof.
  intros Hinit Hall.
  assert (Hwf : wf w).
  { apply wf_intro. intros k id. rewrite Hinit. eauto. }
  destruct (run_calls_spec cs w Hwf Hall) as (rs & w' & h & Hrun & Hh & Hout & Hmaps & Htal).
  exists rs, w', h. split_and!; try assumption.
  intros k id. rewrite Hmaps.
  rewrite (replay_lookup k h _ id 0%Z (Hinit k id)) by (unfold max_int64; lia).
  rewrite Z.add_0_l. reflexivity.
Qed.

(** C1.  Starting with all counters at zero, as at process start, after
    any sequence of completed calls on allocated consumers in which no
    kind has more calls than a 64-bit counter can hold, each kind's group
    reads: RequestCount = ResponseCount = the number N of calls of that
    kind, ResponseErrorsCount = the number K of downstream failures of
    that kind, ResponseValidCount = N - K; and the K failures plus the
    successes make up the N calls. *)
Theorem counters_after_calls (w : World) (cs : list Call) :
  (forall k id, monitoringMap k w !! id = Some 0%Z) ->
  Forall (fun c => call_consumer c < length (heap w)) cs ->
  (forall k, (Z.of_nat (calls_of k cs) <= max_int64)%Z) ->
  exists (rs : list (option error)) (w' : World) (h : list Event),
    run_calls cs w = Some (rs, w')
    /\ history w' = history w ++ h
    /\ rs = outcomes h
    /\ forall k,
         failures k h + successes k h = calls_of k cs
         /\ monitoringMap k w' !! IDRequestCount = Some (Z.of_nat (calls_of k cs))
         /\ monitoringMap k w' !! IDResponseCount = Some (Z.of_nat (calls_of k cs))
         /\ monitoringMap k w' !! IDResponseErrorsCount = Some (Z.of_nat (failures k h))
         /\ monitoringMap k w' !! IDResponseValidCount
            = Some (Z.of_nat (calls_of k cs - failures k h)).
Proof.
  intros Hinit Hall Hlen.
  destruct (counters_after_calls_wrapping w cs Hinit Hall)
    as (rs & w' & h & Hrun & Hh & Hout & Htal & Hread).
  exists rs, w', h. split_and!; try assumption.
  intros k. destruct (Htal k) as (H1 & H2 & H3 & H4 & H5).
  specialize (Hlen k). unfold max_int64 in Hlen.
  assert (Hfit : forall n, n <= calls_of k cs -> int64_wrap (Z.of_nat n) = Z.of_nat n).
  { intros n Hn. apply int64_wrap_id. unfold max_int64. lia. }
  split_and!.
  - exact H5.
  - rewrite Hread, H1, Hfit by lia. reflexivity.
  - rewrite Hread, H2, Hfit by lia. reflexivity.
  - rewrite Hread, H3, Hfit by lia. reflexivity.
  - rewrite Hread, H4, Hfit by lia. do 2 f_equal. lia.
Qed.

(** C2.  A consume call returns exactly what the downstream consumer's
    operation returned.  When that is an error, the log gains one entry at
    error level carrying it under the key "error"; when it is nil, the log
    is unchanged. *)
Theorem consume_returns_downstream_error (w : World) (c : loc) (mc : monitoredConsumer)
  (ctx : context_Context) (traces : pdata_Traces) (metrics : pdata_Metrics) :
  wf w -> heap w !! c = Some mc ->
  (exists w',
     ConsumeTraces c ctx traces w
     = Some ((otel_ConsumeTraces ctx traces (consumer mc)).1, w')
     /\ logs w'
        = match (otel_ConsumeTraces ctx traces (consumer mc)).1 with
          | Some e =>
              logs w ++ [{| entry_level := ErrorLevel;
                            entry_message := "ConsumeTraces returned an error";
                            entry_fields :=
                              logger_context (logger mc)
                              ++ [{| field_key := "error"; field_error := e |}] |}]
          | None => logs w
          end)
  /\ (exists w',
        ConsumeMetrics c ctx metrics w
        = Some ((otel_ConsumeMetrics ctx metrics (consumer mc)).1, w')
        /\ logs w'
           = match (otel_ConsumeMetrics ctx metrics (consumer mc)).1 with
             | Some e =>
                 logs w ++ [{| entry_level := ErrorLevel;
                               entry_message := "ConsumeMetrics returned an error";
                               entry_fields :=
                                 logger_context (logger mc)
                                 ++ [{| field_key := "error"; field_error := e |}] |}]
             | None => logs w
             end).
Proof.
  intros Hwf Hc. split.
  - destruct (ConsumeTraces_spec w c ctx traces mc Hwf Hc)
      as (w' & Hrun & _ & _ & _ & Hlogs & _).
    exists w'. split; [exact Hrun|]. rewrite Hlogs.
    destruct (otel_ConsumeTraces ctx traces (consumer mc)).1; cbn.
    + reflexivity.
    + apply app_nil_r.
  - destruct (ConsumeMetrics_spec w c ctx metrics mc Hwf Hc)
      as (w' & Hrun & _ & _ & _ & Hlogs & _).
    exists w'. split; [exact Hrun|]. rewrite Hlogs.
    destruct (otel_ConsumeMetrics ctx metrics (consumer mc)).1; cbn.
    + reflexivity.
    + apply app_nil_r.
Qed.

(** C6.  Within one consume call the effects come in this order: the
    RequestCount increment, the downstream invocation, the
    ResponseErrorsCount or ResponseValidCount increment (followed by the
    log entry on an error), the deferred ResponseCount increment; all of
    them are in the history when the call returns, whatever the downstream
    invocation answered. *)
Theorem consume_effects_in_order (w : World) (c : loc) (mc : monitoredConsumer)
  (ctx : context_Context) (traces : pdata_Traces) (metrics : pdata_Metrics) :
  wf w -> heap w !! c = Some mc ->
  (exists w',
     let err := (otel_ConsumeTraces ctx traces (consumer mc)).1 in
     ConsumeTraces c ctx traces w = Some (err, w')
     /\ history w'
        = history w
          ++ [EvInc Traces IDRequestCount;
              EvConsume Traces c err;
              EvInc Traces (outcome_id err)]
          ++ (EvLog <$> call_logs (logger mc) "ConsumeTraces returned an error" err)
          ++ [EvInc Traces IDResponseCount])
  /\ (exists w',
        let err := (otel_ConsumeMetrics ctx metrics (consumer mc)).1 in
        ConsumeMetrics c ctx metrics w = Some (err, w')
        /\ history w'
           = history w
             ++ [EvInc Metrics IDRequestCount;
                 EvConsume Metrics c err;
                 EvInc Metrics (outcome_id err)]
             ++ (EvLog <$> call_logs (logger mc) "ConsumeMetrics returned an error" err)
             ++ [EvInc Metrics IDResponseCount]).
Proof.
  intros Hwf Hc. split.
  - destruct (ConsumeTraces_spec w c ctx traces mc Hwf Hc)
      as (w' & Hrun & _ & _ & _ & _ & Hhist).
    exists w'. cbn zeta. split; [exact Hrun|].
    rewrite Hhist, call_events_order. reflexivity.
  - destruct (ConsumeMetrics_spec w c ctx metrics mc Hwf Hc)
      as (w' & Hrun & _ & _ & _ & _ & Hhist).
    exists w'. cbn zeta. split; [exact Hrun|].
    rewrite Hhist, call_events_order. reflexivity.
Qed.

(** *** The frame of a call, without assumptions on the world *)

Lemma preserves_ret (k : Kind) {A : Type} (a : A) : preserves k (mret a).
Proof. intros w a' w' [= <- <-]. reflexivity. Qed.

Lemma preserves_bind (k : Kind) {A B : Type} (m : M A) (f : A -> M B) :
  preserves k m -> (forall a, preserves k (f a)) -> preserves k (m ≫= f).
Proof.
  intros Hm Hf w b w'. unfold mbind, M_bind, bind.
  destruct (m w) as [[a w1]|] eqn:Hrun; [|discriminate].
  intros Hrun'. rewrite (Hf a _ _ _ Hrun'). apply (Hm _ _ _ Hrun).
Qed.

Lemma preserves_defer (k : Kind) {A : Type} (d : M unit) (body : M A) :
  preserves k d -> preserves k body -> preserves k (defer d body).
Proof.
  intros Hd Hbody w a w'. unfold defer.
  destruct (body w) as [[a1 w1]|] eqn:Hrun; [|discriminate].
  destruct (d w1) as [[[] w2]|] eqn:Hrun'; [|discriminate].
  intros [= <- <-]. rewrite (Hd _ _ _ Hrun'). apply (Hbody _ _ _ Hrun).
Qed.

Lemma preserves_Inc (k k' : Kind) (id : ResultID) : k <> k' -> preserves k (Inc k' id).
Proof.
  intros Hne w a w'. unfold Inc.
  destruct (monitoringMap k' w !! id) as [v|]; [|discriminate].
  intros [= <- <-]. rewrite monitoringMap_record. apply monitoringMap_set_other, Hne.
Qed.

Lemma preserves_load (k : Kind) (c : loc) : preserves k (load c).
Proof.
  intros w a w'. unfold load. destruct (heap w !! c); [|discriminate].
  intros [= <- <-]. reflexivity.
Qed.

Lemma preserves_Logger_Error (k : Kind) (l : Logger) (msg : string) :
  preserves k (Logger_Error l msg).
Proof.
  intros w a w' [= <- <-]. rewrite monitoringMap_record. apply monitoringMap_add_log.
Qed.

Lemma preserves_consumer_ConsumeTraces (k : Kind) (c : loc) (ctx : context_Context)
  (traces : pdata_Traces) :
  preserves k (consumer_ConsumeTraces c ctx traces).
Proof.
  intros w a w'. unfold consumer_ConsumeTraces.
  destruct (heap w !! c) as [mc|]; [|discriminate].
  destruct (otel_ConsumeTraces ctx traces (consumer mc)) as [err d].
  intros [= <- <-]. rewrite monitoringMap_record. apply monitoringMap_set_heap.
Qed.

Lemma preserves_consumer_ConsumeMetrics (k : Kind) (c : loc) (ctx : context_Context)
  (metrics : pdata_Metrics) :
  preserves k (consumer_ConsumeMetrics c ctx metrics).
Proof.
  intros w a w'. unfold consumer_ConsumeMetrics.
  destruct (heap w !! c) as [mc|]; [|discriminate].
  destruct (otel_ConsumeMetrics ctx metrics (consumer mc)) as [err d].
  intros [= <- <-]. rewrite monitoringMap_record. apply monitoringMap_set_heap.
Qed.

Create HintDb frame.

Local Hint Resolve preserves_load preserves_Logger_Error preserves_consumer_ConsumeTraces
  preserves_consumer_ConsumeMetrics : frame.

Ltac frame_tac :=
  repeat first
    [ apply preserves_bind; [|intros ?]
    | apply preserves_defer
    | apply preserves_Inc; discriminate
    | apply preserves_ret
    | match goal with |- preserves _ (match ?x with _ => _ end) => destruct x end
    | solve [auto with frame] ].

Lemma ConsumeTraces_preserves_metrics (c : loc) (ctx : context_Context)
  (traces : pdata_Traces) :
  preserves Metrics (ConsumeTraces c ctx traces).
Proof. unfold ConsumeTraces. frame_tac. Qed.

Lemma ConsumeMetrics_preserves_traces (c : loc) (ctx : context_Context)
  (metrics : pdata_Metrics) :
  preserves Traces (ConsumeMetrics c ctx metrics).
Proof. unfold ConsumeMetrics. frame_tac. Qed.

(** C7.  [ConsumeTraces] leaves the whole metrics map as it was and
    [ConsumeMetrics] leaves the whole traces map as it was, whatever the
    downstream invocation answered. *)
Theorem consume_frames_other_group (w : World) (c : loc) (mc : monitoredConsumer)
  (ctx : context_Context) (traces : pdata_Traces) (metrics : pdata_Metrics) :
  wf w -> heap w !! c = Some mc ->
  (exists r w',
     ConsumeTraces c ctx traces w = Some (r, w')
     /\ gRPCMetricsMonitoringMap w' = gRPCMetricsMonitoringMap w)
  /\ (exists r w',
        ConsumeMetrics c ctx metrics w = Some (r, w')
        /\ gRPCTracesMonitoringMap w' = gRPCTracesMonitoringMap w).
Proof.
  intros Hwf Hc. split.
  - destruct (ConsumeTraces_spec w c ctx traces mc Hwf Hc) as (w' & Hrun & Hmaps & _).
    eexists _, w'. split; [exact Hrun|].
    specialize (Hmaps Metrics). rewrite replay_other_kind in Hmaps by discriminate.
    exact Hmaps.
  - destruct (ConsumeMetrics_spec w c ctx metrics mc Hwf Hc) as (w' & Hrun & Hmaps & _).
    eexists _, w'. split; [exact Hrun|].
    specialize (Hmaps Traces). rewrite replay_other_kind in Hmaps by discriminate.
    exact Hmaps.
Qed.

(** ** Registration *)

Lemma RegisterGRPCServices_eq (w : World) (srv : grpc_Server) (p : BatchProcessor)
  (l : Logger) :
  let c := length (heap w) in
  let w1 :=
    record (EvRegisterTraceReceiver (trace_New "otlp" c))
      (record (EvSetCurrent (Some c))
         (set_current (Some c)
            (set_heap (heap w ++ [{| consumer := otel_Consumer p; logger := l |}]) w))) in
  RegisterGRPCServices srv p l w
  = match otlpreceiver_RegisterTraceReceiver context_Background (trace_New "otlp" c) srv with
    | (Some e, srv1) =>
        Some (Some (withMessage e "failed to register OTLP trace receiver"), srv1, w1)
    | (None, srv1) =>
        match otlpreceiver_RegisterMetricsReceiver context_Background
                (metrics_New "otlp" c) srv1 with
        | (Some e, srv2) =>
            Some (Some (withMessage e "failed to register OTLP metrics receiver"), srv2,
                  record (EvRegisterMetricsReceiver (metrics_New "otlp" c)) w1)
        | (None, srv2) =>
            Some (None, srv2, record (EvRegisterMetricsReceiver (metrics_New "otlp" c)) w1)
        end
    end.
Proof.
  cbn zeta.
  unfold RegisterGRPCServices, mbind, M_bind, bind, new_monitoredConsumer,
    setCurrentMonitoredConsumer, RegisterTraceReceiver, RegisterMetricsReceiver.
  destruct (otlpreceiver_RegisterTraceReceiver _ _ srv) as [[e|] srv1]; [reflexivity|].
  destruct (otlpreceiver_RegisterMetricsReceiver _ _ srv1) as [[e|] srv2]; reflexivity.
Qed.

(** C3, as the code has it.  [RegisterGRPCServices] always returns.  When
    the trace registration fails with [e], it returns [e] wrapped with
    "failed to register OTLP trace receiver", and the history ends with the
    trace registration: the metrics registration is not attempted.  When
    the trace registration succeeds and the metrics registration fails
    with [e], it returns [e] wrapped with "failed to register OTLP metrics
    receiver".  Otherwise it returns nil. *)
Theorem register_error_wrapping (w : World) (srv : grpc_Server) (p : BatchProcessor)
  (l : Logger) :
  let c := length (heap w) in
  let t := otlpreceiver_RegisterTraceReceiver context_Background (trace_New "otlp" c) srv in
  let m := otlpreceiver_RegisterMetricsReceiver context_Background
             (metrics_New "otlp" c) t.2 in
  exists w',
    match t.1 with
    | Some e =>
        RegisterGRPCServices srv p l w
        = Some (Some (withMessage e "failed to register OTLP trace receiver"), t.2, w')
        /\ history w'
           = history w ++ [EvSetCurrent (Some c);
                           EvRegisterTraceReceiver (trace_New "otlp" c)]
    | None =>
        RegisterGRPCServices srv p l w
        = Some (match m.1 with
                | Some e => Some (withMessage e "failed to register OTLP metrics receiver")
                | None => None
                end, m.2, w')
        /\ history w'
           = history w ++ [EvSetCurrent (Some c);
                           EvRegisterTraceReceiver (trace_New "otlp" c);
                           EvRegisterMetricsReceiver (metrics_New "otlp" c)]
    end.
Proof.
  cbn zeta. rewrite RegisterGRPCServices_eq.
  destruct (otlpreceiver_RegisterTraceReceiver _ _ srv) as [[e|] srv1]; cbn [fst snd].
  - eexists. split; [reflexivity|]. cbn [history record].
    rewrite <- app_assoc. reflexivity.
  - destruct (otlpreceiver_RegisterMetricsReceiver _ _ srv1) as [[e|] srv2]; cbn [fst snd];
      (eexists; split; [reflexivity|]; cbn [history record];
       rewrite <- !app_assoc; reflexivity).
Qed.

(** C9.  [RegisterGRPCServices] allocates the new consumer and installs it
    in the slot before it attempts any registration, so that whatever it
    returns, an error included, the slot afterwards holds the new consumer
    and no longer what it held before. *)
Theorem register_installs_before_registering (w : World) (srv : grpc_Server)
  (p : BatchProcessor) (l : Logger) :
  slot_allocated w ->
  let c := length (heap w) in
  exists res w' rest,
    RegisterGRPCServices srv p l w = Some (res, w')
    /\ (is_Some res.1
        <-> is_Some (otlpreceiver_RegisterTraceReceiver context_Background
                       (trace_New "otlp" c) srv).1
            \/ is_Some (otlpreceiver_RegisterMetricsReceiver context_Background
                          (metrics_New "otlp" c)
                          (otlpreceiver_RegisterTraceReceiver context_Background
                             (trace_New "otlp" c) srv).2).1)
    /\ heap w' = heap w ++ [{| consumer := otel_Consumer p; logger := l |}]
    /\ currentMonitoredConsumer w' = Some c
    /\ currentMonitoredConsumer w' <> currentMonitoredConsumer w
    /\ history w'
       = history w ++ EvSetCurrent (Some c)
                      :: EvRegisterTraceReceiver (trace_New "otlp" c) :: rest
    /\ (rest = [] \/ rest = [EvRegisterMetricsReceiver (metrics_New "otlp" c)]).
Proof.
  intros Hslot. cbn zeta. rewrite RegisterGRPCServices_eq.
  assert (Hne : Some (length (heap w)) <> currentMonitoredConsumer w).
  { unfold slot_allocated in Hslot. destruct (currentMonitoredConsumer w) as [c0|].
    - intros [= Heq]. lia.
    - discriminate. }
  destruct (otlpreceiver_RegisterTraceReceiver _ _ srv) as [[e|] srv1]; cbn [fst snd].
  - eexists _, _, []. split; [reflexivity|]. cbn [fst].
    split_and!; try reflexivity; try assumption.
    + split; eauto.
    + cbn [history record]. rewrite <- app_assoc. reflexivity.
    + left. reflexivity.
  - destruct (otlpreceiver_RegisterMetricsReceiver _ _ srv1) as [[e|] srv2]; cbn [fst snd];
      (eexists _, _, [_]; split; [reflexivity|]; cbn [fst];
       split_and!; try reflexivity; try assumption;
       [ | cbn [history record]; rewrite <- !app_assoc; reflexivity
         | right; reflexivity ]).
    + split; eauto.
    + split; [intros [? [=]] | intros [[? [=]] | [? [=]]]].
Qed.

(** ** The snapshot reporter *)

Lemma collect_installed (w : World) (c : loc) (mc : monitoredConsumer) :
  currentMonitoredConsumer w = Some c -> heap w !! c = Some mc ->
  collectMetricsMonitoring w = Some (consumer_report (otel_Stats (consumer mc)), w).
Proof.
  intros Hcur Hc. unfold collectMetricsMonitoring. rewrite Hcur.
  unfold monitoredConsumer_collectMetricsMonitoring, mbind, M_bind, bind, load.
  rewrite Hc. reflexivity.
Qed.

(** C4, as the code has it.  The reporter reads the slot first.  With no
    consumer installed it sends nothing at all to the visitor, no start
    or finish marker either, changes nothing and reports no error.  With a
    consumer installed, what it sends begins with the start marker
    directly followed by the finish marker. *)
Theorem reporter_reads_slot_first (w : World) :
  slot_allocated w ->
  match currentMonitoredConsumer w with
  | None => collectMetricsMonitoring w = Some ([], w)
  | Some c =>
      exists rest,
        collectMetricsMonitoring w
        = Some (OnRegistryStart :: OnRegistryFinished :: rest, w)
  end.
Proof.
  unfold slot_allocated. destruct (currentMonitoredConsumer w) as [c|] eqn:Hcur.
  - intros Hlt. destruct (lookup_lt_is_Some_2 _ _ Hlt) as [mc Hmc].
    rewrite (collect_installed w c mc Hcur Hmc). eexists. reflexivity.
  - intros _. unfold collectMetricsMonitoring. rewrite Hcur. reflexivity.
Qed.

(** C5.  With a consumer installed, the reporter takes the downstream
    snapshot and sends, after the empty top-level section, the namespace
    "consumer" holding the single field "unsupported_dropped" whose value
    is the snapshot's [UnsupportedMetricsDropped]; it returns normally and
    leaves the world as it was. *)
Theorem reporter_writes_unsupported_dropped (w : World) (c : loc) (mc : monitoredConsumer) :
  currentMonitoredConsumer w = Some c -> heap w !! c = Some mc ->
  collectMetricsMonitoring w
  = Some ([OnRegistryStart; OnRegistryFinished]
            ++ ReportNamespace "consumer"
                 (ReportInt "unsupported_dropped"
                    (UnsupportedMetricsDropped (otel_Stats (consumer mc)))),
          w)
  /\ ReportNamespace "consumer"
       (ReportInt "unsupported_dropped"
          (UnsupportedMetricsDropped (otel_Stats (consumer mc))))
     = [OnKey "consumer"; OnRegistryStart;
        OnKey "unsupported_dropped";
        OnInt (UnsupportedMetricsDropped (otel_Stats (consumer mc)));
        OnRegistryFinished].
Proof.
  intros Hcur Hc. split; [|reflexivity].
  rewrite (collect_installed w c mc Hcur Hc). reflexivity.
Qed.

(** C8.  After consumer [a] and then consumer [b] are installed, the slot
    holds [b]: not nil, and not [a] unless they are the same object.  The
    reporter then reports the snapshot of [b]'s downstream consumer, and
    keeps reporting exactly that whatever becomes of the object [a]. *)
Theorem slot_last_write_wins (w : World) (a b : loc) (mb : monitoredConsumer) :
  heap w !! b = Some mb ->
  exists w',
    (setCurrentMonitoredConsumer (Some a);; setCurrentMonitoredConsumer (Some b)) w
    = Some (tt, w')
    /\ heap w' = heap w
    /\ currentMonitoredConsumer w' = Some b
    /\ currentMonitoredConsumer w' <> None
    /\ (a <> b -> currentMonitoredConsumer w' <> Some a)
    /\ collectMetricsMonitoring w'
       = Some (consumer_report (otel_Stats (consumer mb)), w')
    /\ (a <> b ->
        forall ma : monitoredConsumer,
          fst <$> collectMetricsMonitoring (set_heap (<[a := ma]> (heap w')) w')
          = Some (consumer_report (otel_Stats (consumer mb)))).
Proof.
  intros Hb. eexists. split; [reflexivity|].
  cbn [heap currentMonitoredConsumer record set_current].
  split_and!; try reflexivity; try discriminate.
  - intros Hne [= Heq]. congruence.
  - apply (collect_installed _ b mb); [reflexivity | exact Hb].
  - intros Hne ma.
    erewrite (collect_installed _ b mb); [reflexivity | reflexivity |].
    cbn [heap set_heap record set_current].
    rewrite list_lookup_insert_ne by assumption. exact Hb.
Qed.

(** After two registrations in a row the reporter reports the second
    consumer's downstream snapshot. *)
Lemma register_twice_reports_second (w : World) (srvA srvB : grpc_Server)
  (pA pB : BatchProcessor) (lA lB : Logger) :
  exists resA wA resB wB,
    RegisterGRPCServices srvA pA lA w = Some (resA, wA)
    /\ RegisterGRPCServices srvB pB lB wA = Some (resB, wB)
    /\ currentMonitoredConsumer wA = Some (length (heap w))
    /\ currentMonitoredConsumer wB = Some (S (length (heap w)))
    /\ collectMetricsMonitoring wB
       = Some (consumer_report (otel_Stats (otel_Consumer pB)), wB).
Proof.
  assert (Hreg : forall w0 srv p l, exists res w1,
             RegisterGRPCServices srv p l w0 = Some (res, w1)
             /\ heap w1 = heap w0 ++ [{| consumer := otel_Consumer p; logger := l |}]
             /\ currentMonitoredConsumer w1 = Some (length (heap w0))).
  { intros w0 srv p l. rewrite RegisterGRPCServices_eq. cbn zeta.
    destruct (otlpreceiver_RegisterTraceReceiver _ _ srv) as [[e|] srv1].
    - eexists _, _. split; [reflexivity|]. split; reflexivity.
    - destruct (otlpreceiver_RegisterMetricsReceiver _ _ srv1) as [[e|] srv2];
        (eexists _, _; split; [reflexivity|]; split; reflexivity). }
  destruct (Hreg w srvA pA lA) as (resA & wA & HA & HheapA & HcurA).
  destruct (Hreg wA srvB pB lB) as (resB & wB & HB & HheapB & HcurB).
  exists resA, wA, resB, wB. split_and!; try assumption.
  - rewrite HcurB, HheapA, length_app. cbn. f_equal. lia.
  - apply (collect_installed wB (length (heap wA))
             {| consumer := otel_Consumer pB; logger := lB |}); [exact HcurB|].
    rewrite HheapB. apply list_lookup_middle. reflexivity.
Qed.

(** ** The registries *)

Lemma gRPCTracesRegistry_entries :
  entries gRPCTracesRegistry = counter_entry Traces <$> monitoringKeys.
Proof. reflexivity. Qed.

Lemma gRPCMetricsRegistry_entries :
  entries gRPCMetricsRegistry
  = (counter_entry Metrics <$> monitoringKeys) ++ [consumer_entry].
Proof. reflexivity. Qed.

Lemma Permutation_fmap_inv {A B : Type} (f : A -> B) (k : list A) (l : list B) :
  l ≡ₚ f <$> k -> exists k', l = f <$> k' /\ k' ≡ₚ k.
Proof.
  revert l. induction k as [|x k IH]; intros l Hperm.
  - apply Permutation_nil_r in Hperm as ->. exists []. split; reflexivity.
  - cbn in Hperm. apply Permutation_cons_inv_r in Hperm as (l1 & l2 & -> & Hperm).
    destruct (IH (l1 ++ l2)) as (k' & Heq & Hk'); [symmetry; exact Hperm|].
    symmetry in Heq. apply fmap_app_inv in Heq as (k1 & k2 & -> & -> & ->).
    exists (k1 ++ x :: k2). split.
    + rewrite fmap_app. reflexivity.
    + rewrite <- Permutation_middle. constructor. exact Hk'.
Qed.

(** The orders in which the two registries can be ranged over. *)
Lemma range_of_traces (order : list Entry) :
  range_of gRPCTracesRegistry order ->
  exists ids, ids ≡ₚ monitoringKeys /\ order = counter_entry Traces <$> ids.
Proof.
  unfold range_of. rewrite gRPCTracesRegistry_entries. intros Hperm.
  destruct (Permutation_fmap_inv _ _ _ Hperm) as (ids & -> & Hids).
  exists ids. split; [exact Hids | reflexivity].
Qed.

Lemma range_of_metrics (order : list Entry) :
  range_of gRPCMetricsRegistry order ->
  exists ids1 ids2,
    ids1 ++ ids2 ≡ₚ monitoringKeys
    /\ order = (counter_entry Metrics <$> ids1)
               ++ consumer_entry :: (counter_entry Metrics <$> ids2).
Proof.
  unfold range_of. rewrite gRPCMetricsRegistry_entries. intros Hperm.
  assert (Hperm' : order ≡ₚ consumer_entry :: (counter_entry Metrics <$> monitoringKeys)).
  { rewrite Hperm. symmetry. apply Permutation_cons_append. }
  apply Permutation_cons_inv_r in Hperm' as (l1 & l2 & -> & Hperm').
  symmetry in Hperm'.
  destruct (Permutation_fmap_inv _ _ _ Hperm') as (ids & Heq & Hids).
  symmetry in Heq. apply fmap_app_inv in Heq as (ids1 & ids2 & -> & -> & ->).
  exists ids1, ids2. split; [exact Hids | reflexivity].
Qed.

Lemma visit_counters_Full (k : Kind) (w : World) (ids : list ResultID) :
  (forall id, is_Some (monitoringMap k w !! id)) ->
  visit_entries Full (counter_entry k <$> ids) w
  = Some (ids ≫= counter_events k w, w).
Proof.
  intros Hall. induction ids as [|id ids IH]; [reflexivity|].
  cbn [fmap list_fmap visit_entries counter_entry entry_mode entry_var entry_name
       Mode_gt Var_Visit].
  unfold mbind at 1, M_bind, bind. destruct (Hall id) as [v Hv]. rewrite Hv.
  unfold mbind at 1. fold (fmap (M := list) (counter_entry k) ids). rewrite IH.
  cbn. unfold counter_events at 1. rewrite Hv. reflexivity.
Qed.

Lemma visit_counters_Reported (k : Kind) (w : World) (ids : list ResultID) :
  visit_entries Reported (counter_entry k <$> ids) w = Some ([], w).
Proof. induction ids as [|id ids IH]; [reflexivity|]. cbn. exact IH. Qed.

Lemma visit_entries_app (mode : Mode) (es1 es2 : list Entry) (w w1 : World)
  (evs1 : list VisitorEvent) :
  visit_entries mode es1 w = Some (evs1, w1) ->
  visit_entries mode (es1 ++ es2) w
  = match visit_entries mode es2 w1 with
    | Some (evs2, w2) => Some (evs1 ++ evs2, w2)
    | None => None
    end.
Proof.
  revert w evs1. induction es1 as [|e es1 IH]; intros w evs1.
  - intros [= <- <-]. cbn. destruct (visit_entries mode es2 w) as [[? ?]|]; reflexivity.
  - cbn [app visit_entries]. destruct (Mode_gt (entry_mode e) mode); [apply IH|].
    unfold mbind at 1 3, M_bind, bind.
    destruct (Var_Visit (entry_var e) w) as [[evs wa]|]; [|discriminate].
    unfold mbind at 1 2, M_bind, bind.
    destruct (visit_entries mode es1 wa) as [[rest wb]|] eqn:Hrest; [|discriminate].
    intros [= <- <-]. rewrite (IH wa rest Hrest).
    destruct (visit_entries mode es2 wb) as [[evs2 w2]|]; [|reflexivity].
    cbn. rewrite <- app_assoc. reflexivity.
Qed.

Lemma visit_counters_keys (k : Kind) (mode : Mode) (ids : list ResultID) (w w' : World)
  (evs : list VisitorEvent) :
  visit_entries mode (counter_entry k <$> ids) w = Some (evs, w') ->
  w' = w /\ forall name, OnKey name ∈ evs -> name ∈ ResultID_name <$> ids.
Proof.
  revert evs. induction ids as [|id ids IH]; intros evs.
  - intros [= <- <-]. split; [reflexivity|]. intros name Hin. inversion Hin.
  - cbn [fmap list_fmap visit_entries counter_entry entry_mode entry_var entry_name
         Var_Visit].
    fold (fmap (M := list) (counter_entry k) ids).
    destruct (Mode_gt Full mode).
    + intros Hv. destruct (IH evs Hv) as [-> Hkeys]. split; [reflexivity|].
      intros name Hin. cbn. right. apply Hkeys, Hin.
    + unfold mbind at 1, M_bind, bind.
      destruct (monitoringMap k w !! id) as [v|]; [|discriminate].
      unfold mbind at 1, M_bind, bind.
      destruct (visit_entries mode (counter_entry k <$> ids) w) as [[rest w1]|];
        [|discriminate].
      intros [= <- <-]. destruct (IH rest eq_refl) as [Hw Hkeys].
      split; [exact Hw|]. intros name Hin. cbn in Hin |- *.
      apply elem_of_cons in Hin as [[= ->]|Hin]; [left|].
      apply elem_of_cons in Hin as [[=]|Hin]. right. apply Hkeys, Hin.
Qed.

Lemma name_in_keys (name : string) (ids : list ResultID) :
  ids ≡ₚ monitoringKeys -> name ∈ ResultID_name <$> ids -> name <> "consumer".
Proof.
  intros Hperm Hin. rewrite Hperm in Hin. cbn in Hin.
  repeat (apply elem_of_cons in Hin as [->|Hin]; [discriminate|]).
  inversion Hin.
Qed.

(** A visit of the metrics registry, in full and in reported mode, when
    the range yields the counters [ids1], then the callback, then the
    counters [ids2]. *)
Lemma visit_metrics_Full (w : World) (ids1 ids2 : list ResultID) (cb : list VisitorEvent) :
  wf w -> collectMetricsMonitoring w = Some (cb, w) ->
  Registry_Visit Full
    ((counter_entry Metrics <$> ids1) ++ consumer_entry :: (counter_entry Metrics <$> ids2)) w
  = Some ([OnRegistryStart]
            ++ (ids1 ≫= counter_events Metrics w)
            ++ [OnKey "consumer"] ++ cb
            ++ (ids2 ≫= counter_events Metrics w)
            ++ [OnRegistryFinished], w).
Proof.
  intros Hwf Hcol. unfold Registry_Visit. unfold mbind at 1, M_bind, bind.
  erewrite visit_entries_app
    by (apply visit_counters_Full; intros id; apply wf_lookup, Hwf).
  cbn [visit_entries consumer_entry entry_mode Mode_gt entry_var Var_Visit entry_name].
  unfold mbind at 1, M_bind, bind. rewrite Hcol.
  unfold mbind at 1, M_bind, bind.
  rewrite visit_counters_Full by (intros id; apply wf_lookup, Hwf).
  unfold mret, M_ret, ret. cbn [app].
  rewrite <- app_assoc, <- app_comm_cons, <- app_assoc. reflexivity.
Qed.

Lemma visit_metrics_Reported (w : World) (ids1 ids2 : list ResultID)
  (cb : list VisitorEvent) :
  collectMetricsMonitoring w = Some (cb, w) ->
  Registry_Visit Reported
    ((counter_entry Metrics <$> ids1) ++ consumer_entry :: (counter_entry Metrics <$> ids2)) w
  = Some ([OnRegistryStart; OnKey "consumer"] ++ cb ++ [OnRegistryFinished], w).
Proof.
  intros Hcol. unfold Registry_Visit. unfold mbind at 1, M_bind, bind.
  erewrite visit_entries_app by apply visit_counters_Reported.
  cbn [visit_entries consumer_entry entry_mode Mode_gt entry_var Var_Visit entry_name].
  unfold mbind at 1, M_bind, bind. rewrite Hcol.
  unfold mbind at 1, M_bind, bind. rewrite visit_counters_Reported.
  unfold mret, M_ret, ret. rewrite app_nil_r. reflexivity.
Qed.

Lemma collect_returns (w : World) :
  slot_allocated w -> exists evs, collectMetricsMonitoring w = Some (evs, w).
Proof.
  unfold slot_allocated. intros Hslot.
  destruct (currentMonitoredConsumer w) as [c|] eqn:Hcur.
  - destruct (lookup_lt_is_Some_2 _ _ Hslot) as [mc Hmc].
    eexists. apply (collect_installed w c mc Hcur Hmc).
  - eexists. unfold collectMetricsMonitoring. rewrite Hcur. reflexivity.
Qed.

(** C10.  Whatever the order in which a registry's entries are ranged
    over: a full visit of the traces registry shows the four call
    counters, each once, with the values of the traces group; no visit of
    the traces registry, in any mode, shows a key "consumer"; a visit of
    the metrics registry shows the key "consumer" followed by what the
    callback [collectMetricsMonitoring] reports, among the four counters
    of the metrics group in full mode and alone in reported mode; and the
    only integer the callback ever reports is the
    [UnsupportedMetricsDropped] of the current consumer's downstream
    snapshot. *)
Theorem callback_only_in_metrics_registry :
  (forall (w : World) (order : list Entry),
      wf w -> range_of gRPCTracesRegistry order ->
      exists ids,
        ids ≡ₚ monitoringKeys
        /\ Registry_Visit Full order w
           = Some ([OnRegistryStart]
                     ++ (ids ≫= counter_events Traces w)
                     ++ [OnRegistryFinished], w))
  /\ (forall (w w' : World) (mode : Mode) (order : list Entry) (evs : list VisitorEvent),
        range_of gRPCTracesRegistry order ->
        Registry_Visit mode order w = Some (evs, w') ->
        OnKey "consumer" ∉ evs)
  /\ (forall (w : World) (order : list Entry),
        wf w -> slot_allocated w -> range_of gRPCMetricsRegistry order ->
        exists cb ids1 ids2,
          collectMetricsMonitoring w = Some (cb, w)
          /\ ids1 ++ ids2 ≡ₚ monitoringKeys
          /\ Registry_Visit Full order w
             = Some ([OnRegistryStart]
                       ++ (ids1 ≫= counter_events Metrics w)
                       ++ [OnKey "consumer"] ++ cb
                       ++ (ids2 ≫= counter_events Metrics w)
                       ++ [OnRegistryFinished], w)
          /\ Registry_Visit Reported order w
             = Some ([OnRegistryStart; OnKey "consumer"] ++ cb ++ [OnRegistryFinished], w))
  /\ (forall (w w' : World) (evs : list VisitorEvent) (n : Z),
        collectMetricsMonitoring w = Some (evs, w') ->
        OnInt n ∈ evs ->
        exists c mc,
          currentMonitoredConsumer w = Some c
          /\ heap w !! c = Some mc
          /\ n = UnsupportedMetricsDropped (otel_Stats (consumer mc))).
Proof.
  split_and!.
  - intros w order Hwf Hrange.
    destruct (range_of_traces order Hrange) as (ids & Hids & ->).
    exists ids. split; [exact Hids|].
    unfold Registry_Visit. unfold mbind at 1, M_bind, bind.
    rewrite visit_counters_Full by (intros id; apply wf_lookup, Hwf).
    reflexivity.
  - intros w w' mode order evs Hrange.
    destruct (range_of_traces order Hrange) as (ids & Hids & ->).
    unfold Registry_Visit. unfold mbind at 1, M_bind, bind.
    destruct (visit_entries mode (counter_entry Traces <$> ids) w)
      as [[evs0 w0]|] eqn:Hv; [|discriminate].
    intros [= <- <-]. destruct (visit_counters_keys _ _ _ _ _ _ Hv) as [_ Hkeys].
    intros Hin. apply elem_of_cons in Hin as [Hin|Hin]; [discriminate|].
    apply elem_of_app in Hin as [Hin|Hin].
    + apply Hkeys in Hin. apply (name_in_keys _ _ Hids Hin). reflexivity.
    + apply elem_of_cons in Hin as [Hin|Hin]; [discriminate | inversion Hin].
  - intros w order Hwf Hslot Hrange.
    destruct (collect_returns w Hslot) as [cb Hcol].
    destruct (range_of_metrics order Hrange) as (ids1 & ids2 & Hids & ->).
    exists cb, ids1, ids2. split_and!.
    + exact Hcol.
    + exact Hids.
    + apply visit_metrics_Full; assumption.
    + apply visit_metrics_Reported; assumption.
  - intros w w' evs n. unfold collectMetricsMonitoring.
    destruct (currentMonitoredConsumer w) as [c|] eqn:Hcur.
    + unfold monitoredConsumer_collectMetricsMonitoring, mbind, M_bind, bind, load.
      destruct (heap w !! c) as [mc|] eqn:Hmc; [|discriminate].
      intros [= <- <-] Hin. exists c, mc.
      split; [reflexivity|]. split; [exact Hmc|].
      unfold ReportNamespace, ReportInt in Hin. cbn [app] in Hin.
      repeat (apply elem_of_cons in Hin as [Hin|Hin];
              [first [discriminate | injection Hin as ->; reflexivity]|]).
      inversion Hin.
    + intros [= <- <-] Hin. inversion Hin.
Qed.

(** * Further properties of the methods *)

(** ** One call, read through [call_answer] *)

Lemma do_call_post (w : World) (c : Call) (mc : monitoredConsumer) :
  wf w -> heap w !! call_consumer c = Some mc ->
  exists w',
    do_call c w = Some ((call_answer c (consumer mc)).1, w')
    /\ call_post (call_kind c) (call_consumer c) mc (call_message c)
         (call_answer c (consumer mc)) w w'.
Proof.
  intros Hwf Hmc. destruct c as [c ctx traces | c ctx metrics]; cbn in Hmc |- *.
  - apply ConsumeTraces_spec; assumption.
  - apply ConsumeMetrics_spec; assumption.
Qed.

Lemma replay_call_events_lookup (k k' : Kind) (c : loc) (l : Logger) (msg : string)
  (err : option error) (m : gmap ResultID Z) (id : ResultID) :
  replay k' (call_events k c l msg err) m !! id
  = if decide (k' = k)
    then (if incremented err id then Int_Inc <$> m !! id else m !! id)
    else m !! id.
Proof.
  destruct (decide (k' = k)) as [->|Hne].
  - destruct err as [e|]; unfold call_events;
      repeat first [ rewrite replay_inc_same | rewrite replay_consume
                   | rewrite replay_log ];
      rewrite replay_nil, !inc_counter_lookup;
      destruct id; cbn; reflexivity.
  - rewrite replay_other_kind by assumption. reflexivity.
Qed.

(** X1.  A call increments the request and the response counter of its
    own group by one each, and exactly one of the error and valid
    counters, chosen by what the downstream invocation returned; the other
    of the two keeps its value.  This holds from any counter values. *)
Theorem call_increments_exactly_once (w : World) (c : Call) (mc : monitoredConsumer) :
  wf w -> heap w !! call_consumer c = Some mc ->
  let k := call_kind c in
  let err := (call_answer c (consumer mc)).1 in
  exists w',
    do_call c w = Some (err, w')
    /\ monitoringMap k w' !! IDRequestCount
       = Int_Inc <$> monitoringMap k w !! IDRequestCount
    /\ monitoringMap k w' !! IDResponseCount
       = Int_Inc <$> monitoringMap k w !! IDResponseCount
    /\ match err with
       | Some _ =>
           monitoringMap k w' !! IDResponseErrorsCount
           = Int_Inc <$> monitoringMap k w !! IDResponseErrorsCount
           /\ monitoringMap k w' !! IDResponseValidCount
              = monitoringMap k w !! IDResponseValidCount
       | None =>
           monitoringMap k w' !! IDResponseErrorsCount
           = monitoringMap k w !! IDResponseErrorsCount
           /\ monitoringMap k w' !! IDResponseValidCount
              = Int_Inc <$> monitoringMap k w !! IDResponseValidCount
       end.
Proof.
  intros Hwf Hmc. cbn zeta.
  destruct (do_call_post w c mc Hwf Hmc) as (w' & Hrun & Hmaps & _).
  exists w'. split; [exact Hrun|].
  rewrite !Hmaps, !replay_call_events_lookup, !decide_True by reflexivity.
  destruct (call_answer c (consumer mc)).1; cbn; auto.
Qed.

Lemma wf_of_balanced (w : World) : (forall k, balanced k w) -> wf w.
Proof.
  intros Hb. apply wf_intro. intros k id.
  destruct (Hb k) as (req & resp & errs & valid & H1 & H2 & H3 & H4 & _).
  destruct id; eauto.
Qed.

Lemma call_post_balanced (k k' : Kind) (c : loc) (mc : monitoredConsumer) (msg : string)
  (r : option error * otelConsumer) (w w' : World) :
  call_post k c mc msg r w w' -> balanced k' w -> balanced k' w'.
Proof.
  intros (Hmaps & _) (req & resp & errs & valid & H1 & H2 & H3 & H4 & Hreq & Hresp).
  unfold balanced. rewrite !Hmaps, !replay_call_events_lookup.
  destruct (decide (k' = k)) as [->|Hne].
  - rewrite H1, H2, H3, H4.
    destruct r.1; cbn [incremented fmap option_fmap option_map].
    + eexists _, _, _, _. split_and!; try reflexivity.
      * unfold Int_Inc. congruence.
      * unfold Int_Inc. rewrite Hresp, int64_wrap_add, int64_wrap_add.
        f_equal. lia.
    + eexists _, _, _, _. split_and!; try reflexivity.
      * unfold Int_Inc. congruence.
      * unfold Int_Inc. rewrite Hresp, int64_wrap_add.
        rewrite (Z.add_comm errs (int64_wrap (valid + 1))), int64_wrap_add.
        f_equal. lia.
  - eauto 10.
Qed.

(** X2.  Completed calls keep every group balanced: if, in each group,
    RequestCount equals ResponseCount and ResponseCount equals
    ResponseErrorsCount plus ResponseValidCount (as 64-bit integers)
    before a sequence of calls, the same holds after it. *)
Theorem calls_keep_groups_balanced (w : World) (cs : list Call) :
  (forall k, balanced k w) ->
  Forall (fun c => call_consumer c < length (heap w)) cs ->
  exists rs w',
    run_calls cs w = Some (rs, w') /\ forall k, balanced k w'.
Proof.
  revert w. induction cs as [|c cs IH]; intros w Hb Hall.
  - exists [], w. split; [reflexivity | exact Hb].
  - inversion Hall as [|? ? Hc Hcs]; subst.
    pose proof (wf_of_balanced w Hb) as Hwf.
    destruct (do_call_spec w c Hwf Hc) as (mc & msg & r & w1 & Hrun & Hpost).
    pose proof (call_post_heap_length _ _ _ _ _ _ _ Hpost) as Hlen.
    destruct (IH w1) as (rs & w' & Hrs & Hb').
    { intros k. eapply call_post_balanced; [exact Hpost | apply Hb]. }
    { rewrite Hlen. exact Hcs. }
    exists (r.1 :: rs), w'. split; [|exact Hb'].
    cbn [run_calls]. unfold mbind, M_bind, bind. rewrite Hrun, Hrs. reflexivity.
Qed.

(** X3.  A call never changes which consumer is current, never adds or
    removes a consumer object, and never changes the logger of any
    consumer, the called one included. *)
Theorem call_keeps_slot_and_loggers (w : World) (c : Call) (mc : monitoredConsumer) :
  wf w -> heap w !! call_consumer c = Some mc ->
  exists r w',
    do_call c w = Some (r, w')
    /\ currentMonitoredConsumer w' = currentMonitoredConsumer w
    /\ length (heap w') = length (heap w)
    /\ (forall (c' : loc) (mc' : monitoredConsumer),
          heap w !! c' = Some mc' ->
          exists mc'', heap w' !! c' = Some mc'' /\ logger mc'' = logger mc').
Proof.
  intros Hwf Hmc.
  destruct (do_call_post w c mc Hwf Hmc) as (w' & Hrun & _ & Hcur & Hheap & _).
  eexists _, w'. split; [exact Hrun|]. rewrite Hheap. split_and!.
  - exact Hcur.
  - apply length_insert.
  - intros c' mc' Hmc'. destruct (decide (c' = call_consumer c)) as [->|Hne].
    + rewrite list_lookup_insert_eq by (eapply lookup_lt_Some, Hmc).
      eexists. split; [reflexivity|]. cbn [logger]. congruence.
    + rewrite list_lookup_insert_ne by congruence. eauto.
Qed.

(** ** The reporter after calls *)

(** X4.  The reporter sees the live downstream state: after a call on the
    current consumer, it reports the snapshot of the state that call left
    behind. *)
Theorem report_follows_calls_on_current (w : World) (c : Call) (mc : monitoredConsumer) :
  wf w ->
  currentMonitoredConsumer w = Some (call_consumer c) ->
  heap w !! call_consumer c = Some mc ->
  exists r w',
    do_call c w = Some (r, w')
    /\ collectMetricsMonitoring w'
       = Some (consumer_report (otel_Stats (call_answer c (consumer mc)).2), w').
Proof.
  intros Hwf Hcur Hmc.
  destruct (do_call_post w c mc Hwf Hmc) as (w' & Hrun & _ & Hcur' & Hheap & _).
  eexists _, w'. split; [exact Hrun|].
  apply (collect_installed w' (call_consumer c)
           {| consumer := (call_answer c (consumer mc)).2; logger := logger mc |}).
  - rewrite Hcur'. exact Hcur.
  - rewrite Hheap. apply list_lookup_insert_eq. eapply lookup_lt_Some, Hmc.
Qed.

(** X5.  A consumer that is no longer the current one keeps working: a
    call on it returns and counts in the shared group, but the reporter
    goes on reporting the current consumer's snapshot, which the call does
    not change. *)
Theorem superseded_consumer_counts_unreported (w : World) (c : Call)
  (ma : monitoredConsumer) (b : loc) (mb : monitoredConsumer) :
  wf w ->
  heap w !! call_consumer c = Some ma ->
  currentMonitoredConsumer w = Some b -> heap w !! b = Some mb ->
  b <> call_consumer c ->
  exists r w',
    do_call c w = Some (r, w')
    /\ monitoringMap (call_kind c) w' !! IDRequestCount
       = Int_Inc <$> monitoringMap (call_kind c) w !! IDRequestCount
    /\ collectMetricsMonitoring w = Some (consumer_report (otel_Stats (consumer mb)), w)
    /\ collectMetricsMonitoring w' = Some (consumer_report (otel_Stats (consumer mb)), w').
Proof.
  intros Hwf Hma Hcur Hmb Hne.
  destruct (do_call_post w c ma Hwf Hma) as (w' & Hrun & Hmaps & Hcur' & Hheap & _).
  eexists _, w'. split; [exact Hrun|]. split_and!.
  - rewrite Hmaps, replay_call_events_lookup, decide_True by reflexivity.
    destruct (call_answer c (consumer ma)).1; reflexivity.
  - apply (collect_installed w b mb Hcur Hmb).
  - apply (collect_installed w' b mb).
    + rewrite Hcur'. exact Hcur.
    + rewrite Hheap, list_lookup_insert_ne by congruence. exact Hmb.
Qed.

(** ** Registration, further *)

(** X6.  [RegisterGRPCServices] never touches the call counters or the
    log, and keeps every object that was allocated before it; it leaves a
    well-formed world well formed and the slot pointing at an allocated
    object. *)
Theorem register_keeps_counters_and_objects (w : World) (srv : grpc_Server)
  (p : BatchProcessor) (l : Logger) :
  exists res w',
    RegisterGRPCServices srv p l w = Some (res, w')
    /\ gRPCTracesMonitoringMap w' = gRPCTracesMonitoringMap w
    /\ gRPCMetricsMonitoringMap w' = gRPCMetricsMonitoringMap w
    /\ logs w' = logs w
    /\ (forall c mc, heap w !! c = Some mc -> heap w' !! c = Some mc)
    /\ (wf w -> wf w')
    /\ slot_allocated w'.
Proof.
  rewrite RegisterGRPCServices_eq. cbn zeta.
  destruct (otlpreceiver_RegisterTraceReceiver _ _ srv) as [[e|] srv1];
    [|destruct (otlpreceiver_RegisterMetricsReceiver _ _ srv1) as [[e|] srv2]];
    (eexists _, _; split; [reflexivity|];
     cbn [gRPCTracesMonitoringMap gRPCMetricsMonitoringMap logs heap record set_current
          set_heap];
     split_and!; try reflexivity;
     [ intros c mc Hc; apply lookup_app_l_Some; exact Hc
     | intros Hwf; exact Hwf
     | unfold slot_allocated;
       cbn [currentMonitoredConsumer heap record set_current set_heap];
       rewrite length_app; cbn; lia ]).
Qed.

(** X7.  When [RegisterGRPCServices] fails, the error it returns has the
    same root cause as the framework error that made it fail, and its text
    is a message of the entry point, a colon and the framework error's
    text; when no registration fails it returns nil. *)
Theorem register_keeps_root_cause (w : World) (srv : grpc_Server)
  (p : BatchProcessor) (l : Logger) :
  let failure := registration_failure (length (heap w)) srv in
  let returned := returned_error (RegisterGRPCServices srv p l w) in
  errors_Cause <$> returned = errors_Cause <$> failure
  /\ match failure with
     | Some e =>
         exists message,
           (Error_string <$> returned) = Some (message +:+ ": " +:+ Error_string e)
     | None => returned = None
     end.
Proof.
  cbn zeta. unfold registration_failure. rewrite RegisterGRPCServices_eq. cbn zeta.
  destruct (otlpreceiver_RegisterTraceReceiver _ _ srv) as [[e|] srv1]; cbn [fst snd].
  - split; [reflexivity|]. eexists. reflexivity.
  - destruct (otlpreceiver_RegisterMetricsReceiver _ _ srv1) as [[e|] srv2]; cbn [fst snd].
    + split; [reflexivity|]. eexists. reflexivity.
    + split; reflexivity.
Qed.

(** ** Logging and downstream invocations over a sequence of calls *)

Lemma logged_app (h1 h2 : list Event) : logged (h1 ++ h2) = logged h1 ++ logged h2.
Proof. unfold logged. apply omap_app. Qed.

Lemma logged_call (k : Kind) (c : loc) (l : Logger) (msg : string) (err : option error) :
  logged (call_events k c l msg err) = call_logs l msg err.
Proof. destruct err; reflexivity. Qed.

Lemma call_logs_failures (k : Kind) (c : loc) (l : Logger) (msg : string)
  (err : option error) :
  length (call_logs l msg err)
  = failures Traces (call_events k c l msg err)
    + failures Metrics (call_events k c l msg err).
Proof. destruct err, k; reflexivity. Qed.

Lemma call_logs_level (l : Logger) (msg : string) (err : option error) :
  Forall (fun e => entry_level e = ErrorLevel) (call_logs l msg err).
Proof. destruct err; repeat constructor. Qed.

Lemma run_calls_logs (cs : list Call) (w : World) :
  wf w -> Forall (fun c => call_consumer c < length (heap w)) cs ->
  exists (rs : list (option error)) (w' : World) (h : list Event),
    run_calls cs w = Some (rs, w')
    /\ history w' = history w ++ h
    /\ logs w' = logs w ++ logged h
    /\ length (logged h) = failures Traces h + failures Metrics h
    /\ Forall (fun e => entry_level e = ErrorLevel) (logged h)
    /\ rs = outcomes h
    /\ length (outcomes h) = length cs.
Proof.
  revert w. induction cs as [|c cs IH]; intros w Hwf Hall.
  - exists [], w, []. cbn. rewrite !app_nil_r. split_and!; try reflexivity.
    constructor.
  - inversion Hall as [|? ? Hc Hcs]; subst.
    destruct (do_call_spec w c Hwf Hc) as (mc & msg & r & w1 & Hrun & Hpost).
    pose proof (call_post_wf _ _ _ _ _ _ _ Hwf Hpost) as Hwf1.
    pose proof (call_post_heap_length _ _ _ _ _ _ _ Hpost) as Hlen.
    destruct Hpost as (_ & _ & _ & Hlogs & Hhist).
    destruct (IH w1 Hwf1) as (rs & w' & h & Hrs & Hh & Hl & Hn & Hlev & Hout & Hno).
    { rewrite Hlen. exact Hcs. }
    exists (r.1 :: rs), w',
      (call_events (call_kind c) (call_consumer c) (logger mc) msg r.1 ++ h).
    cbn [run_calls]. unfold mbind, M_bind, bind. rewrite Hrun, Hrs.
    rewrite logged_app, logged_call, outcomes_app, outcomes_call.
    split_and!.
    + reflexivity.
    + rewrite Hh, Hhist, app_assoc. reflexivity.
    + rewrite Hl, Hlogs, app_assoc. reflexivity.
    + unfold failures in *. rewrite length_app, !count_app, Hn.
      pose proof (call_logs_failures (call_kind c) (call_consumer c) (logger mc) msg r.1)
        as Hcall.
      unfold failures in Hcall. lia.
    + apply Forall_app. split; [apply call_logs_level | exact Hlev].
    + rewrite Hout. reflexivity.
    + cbn. rewrite Hno. reflexivity.
Qed.

(** X8.  Over a sequence of completed calls the log grows by exactly one
    entry per downstream failure, every one of them at error level; calls
    whose downstream invocation succeeds log nothing. *)
Theorem one_log_entry_per_failure (w : World) (cs : list Call) :
  wf w -> Forall (fun c => call_consumer c < length (heap w)) cs ->
  exists (rs : list (option error)) (w' : World) (h : list Event)
         (new : list LogEntry),
    run_calls cs w = Some (rs, w')
    /\ history w' = history w ++ h
    /\ logs w' = logs w ++ new
    /\ length new = failures Traces h + failures Metrics h
    /\ Forall (fun e => entry_level e = ErrorLevel) new.
Proof.
  intros Hwf Hall.
  destruct (run_calls_logs cs w Hwf Hall)
    as (rs & w' & h & Hrun & Hh & Hl & Hn & Hlev & _).
  exists rs, w', h, (logged h). split_and!; assumption.
Qed.

(** X9.  Every call invokes the downstream consumer exactly once, with no
    retry after a failure: a sequence of calls leaves as many downstream
    invocations in the history as there are calls, and the calls return,
    in order, what those invocations answered. *)
Theorem one_downstream_invocation_per_call (w : World) (cs : list Call) :
  wf w -> Forall (fun c => call_consumer c < length (heap w)) cs ->
  exists (rs : list (option error)) (w' : World) (h : list Event),
    run_calls cs w = Some (rs, w')
    /\ history w' = history w ++ h
    /\ length (outcomes h) = length cs
    /\ rs = outcomes h.
Proof.
  intros Hwf Hall.
  destruct (run_calls_logs cs w Hwf Hall)
    as (rs & w' & h & Hrun & Hh & _ & _ & _ & Hout & Hno).
  exists rs, w', h. split_and!; assumption.
Qed.

(** ** Runs of the package *)

Lemma register_post (w : World) (srv : grpc_Server) (p : BatchProcessor) (l : Logger) :
  exists res w',
    RegisterGRPCServices srv p l w = Some (res, w')
    /\ (forall k, monitoringMap k w' = monitoringMap k w)
    /\ heap w' = heap w ++ [{| consumer := otel_Consumer p; logger := l |}]
    /\ currentMonitoredConsumer w' = Some (length (heap w)).
Proof.
  rewrite RegisterGRPCServices_eq. cbn zeta.
  destruct (otlpreceiver_RegisterTraceReceiver _ _ srv) as [[e|] srv1];
    [|destruct (otlpreceiver_RegisterMetricsReceiver _ _ srv1) as [[e|] srv2]];
    (eexists _, _; split; [reflexivity|]; split_and!; try reflexivity;
     intros []; reflexivity).
Qed.

Lemma run_op_post (w : World) (op : Op) :
  wf w -> slot_allocated w ->
  (forall c, op = OpCall c -> call_consumer c < length (heap w)) ->
  exists w',
    run_op op w = Some (tt, w')
    /\ wf w' /\ slot_allocated w'
    /\ length (heap w') = length (heap w) + (if is_register op then 1 else 0)
    /\ (is_collect op = true -> w' = w).
Proof.
  intros Hwf Hslot Hcall. destruct op as [srv p l | c |]; cbn [run_op is_register is_collect].
  - destruct (register_post w srv p l) as (res & w' & Hrun & Hmaps & Hheap & Hcur).
    exists w'. unfold mbind, M_bind, bind. rewrite Hrun. split_and!.
    + reflexivity.
    + apply wf_intro. intros k id. rewrite Hmaps. apply wf_lookup, Hwf.
    + unfold slot_allocated. rewrite Hcur, Hheap, length_app. cbn. lia.
    + rewrite Hheap, length_app. reflexivity.
    + discriminate.
  - destruct (do_call_spec w c Hwf (Hcall c eq_refl)) as (mc & msg & r & w' & Hrun & Hpost).
    exists w'. unfold mbind, M_bind, bind. rewrite Hrun. split_and!.
    + reflexivity.
    + eapply call_post_wf; eassumption.
    + unfold slot_allocated.
      rewrite (call_post_heap_length _ _ _ _ _ _ _ Hpost).
      destruct Hpost as (_ & -> & _). exact Hslot.
    + rewrite (call_post_heap_length _ _ _ _ _ _ _ Hpost). lia.
    + discriminate.
  - destruct (collect_returns w Hslot) as [evs Hrun].
    exists w. unfold mbind, M_bind, bind. rewrite Hrun. split_and!; try done; lia.
Qed.

Lemma run_ops_post (ops : list Op) (w : World) :
  wf w -> slot_allocated w -> calls_allocated (length (heap w)) ops = true ->
  exists w',
    run_ops ops w = Some (tt, w')
    /\ run_ops (without_collect ops) w = Some (tt, w')
    /\ wf w' /\ slot_allocated w'
    /\ length (heap w') = length (heap w) + registrations ops.
Proof.
  revert w. induction ops as [|op ops IH]; intros w Hwf Hslot Hall.
  - exists w. cbn. split_and!; try done; unfold registrations; cbn; lia.
  - destruct (run_op_post w op Hwf Hslot) as (w1 & Hrun & Hwf1 & Hslot1 & Hlen & Hcol).
    { intros c ->. cbn in Hall. apply andb_true_iff in Hall as [Hlt _].
      apply Nat.ltb_lt, Hlt. }
    destruct (IH w1 Hwf1 Hslot1) as (w' & Hrest & Hrest' & Hwf' & Hslot' & Hlen').
    { rewrite Hlen. destruct op; cbn in Hall |- *.
      - rewrite Nat.add_1_r. exact Hall.
      - rewrite Nat.add_0_r. apply andb_true_iff in Hall as [_ Hall]. exact Hall.
      - rewrite Nat.add_0_r. exact Hall. }
    exists w'. split_and!; try assumption.
    + cbn [run_ops]. unfold mbind at 1, M_bind, bind. rewrite Hrun. exact Hrest.
    + unfold without_collect. cbn [List.filter].
      destruct (is_collect op) eqn:Hop; cbn [negb].
      * rewrite <- (Hcol eq_refl). exact Hrest'.
      * cbn [run_ops]. unfold mbind at 1, M_bind, bind. rewrite Hrun. exact Hrest'.
    + rewrite Hlen', Hlen. unfold registrations. cbn [List.filter].
      destruct (is_register op); cbn [length]; lia.
Qed.

Lemma do_call_unallocated (w : World) (c : Call) :
  heap w !! call_consumer c = None -> do_call c w = None.
Proof.
  intros Hnone.
  assert (Hinc : forall k id w1,
             (Inc k id w = Some (tt, w1) -> heap w1 = heap w)).
  { intros k id w1. unfold Inc. destruct (monitoringMap k w !! id); [|discriminate].
    intros [= <-]. destruct k; reflexivity. }
  destruct c as [c ctx traces | c ctx metrics]; cbn in Hnone |- *.
  - unfold ConsumeTraces, mbind, M_bind, bind.
    destruct (Inc Traces IDRequestCount w) as [[[] w1]|] eqn:Hw1; [|reflexivity].
    unfold defer, consumer_ConsumeTraces.
    rewrite (Hinc _ _ _ Hw1), Hnone. reflexivity.
  - unfold ConsumeMetrics, mbind, M_bind, bind.
    destruct (Inc Metrics IDRequestCount w) as [[[] w1]|] eqn:Hw1; [|reflexivity].
    unfold defer, consumer_ConsumeMetrics.
    rewrite (Hinc _ _ _ Hw1), Hnone. reflexivity.
Qed.

Lemma run_op_inv (w w' : World) (op : Op) :
  wf w -> slot_allocated w -> run_op op w = Some (tt, w') ->
  wf w' /\ slot_allocated w'
  /\ length (heap w') = length (heap w) + (if is_register op then 1 else 0).
Proof.
  intros Hwf Hslot Hrun.
  assert (Hcall : forall c, op = OpCall c -> call_consumer c < length (heap w)).
  { intros c ->. destruct (heap w !! call_consumer c) as [mc|] eqn:Hmc.
    - eapply lookup_lt_Some, Hmc.
    - cbn [run_op] in Hrun. unfold mbind, M_bind, bind in Hrun.
      rewrite (do_call_unallocated w c Hmc) in Hrun. discriminate. }
  destruct (run_op_post w op Hwf Hslot Hcall) as (w1 & Hrun1 & Hwf1 & Hslot1 & Hlen & _).
  rewrite Hrun in Hrun1. injection Hrun1 as ->. auto.
Qed.

(** X10.  The package keeps its own state sound over every run that
    completes: from a world whose counter maps hold all of
    [monitoringKeys] and whose slot is nil or allocated, after any
    sequence of registrations, calls and polls that ran to its end the
    counter maps still hold all their keys, the slot is still nil or
    allocated, and there is exactly one more consumer object per
    registration. *)
Theorem completed_runs_keep_state_sound (w w' : World) (ops : list Op) :
  wf w -> slot_allocated w -> run_ops ops w = Some (tt, w') ->
  wf w' /\ slot_allocated w'
  /\ length (heap w') = length (heap w) + registrations ops.
Proof.
  revert w. induction ops as [|op ops IH]; intros w Hwf Hslot Hrun.
  - injection Hrun as <-. split_and!; try assumption. unfold registrations. cbn. lia.
  - cbn [run_ops] in Hrun. unfold mbind at 1, M_bind, bind in Hrun.
    destruct (run_op op w) as [[[] w1]|] eqn:Hop; [|discriminate].
    destruct (run_op_inv w w1 op Hwf Hslot Hop) as (Hwf1 & Hslot1 & Hlen).
    destruct (IH w1 Hwf1 Hslot1 Hrun) as (Hwf' & Hslot' & Hlen').
    split_and!; try assumption.
    rewrite Hlen', Hlen. unfold registrations. cbn [List.filter].
    destruct (is_register op); cbn [length]; lia.
Qed.

(** X11.  Polling the reporter never perturbs the package: a run ends in
    the same world (counters, slot, objects, log and history) as the run
    with all the polls left out. *)
Theorem polls_leave_no_trace (w : World) (ops : list Op) :
  wf w -> slot_allocated w -> calls_allocated (length (heap w)) ops = true ->
  exists w',
    run_ops ops w = Some (tt, w')
    /\ run_ops (without_collect ops) w = Some (tt, w').
Proof.
  intros Hwf Hslot Hall.
  destruct (run_ops_post ops w Hwf Hslot Hall) as (w' & Hrun & Hrun' & _).
  exists w'. split; assumption.
Qed.

(** ** The exported counters after traffic *)

Lemma counter_events_expected (k : Kind) (w : World) (n f : nat) (ids : list ResultID) :
  (forall id, monitoringMap k w !! id = Some (expected_count n f id)) ->
  ids ≫= counter_events k w
  = ids ≫= (fun id => [OnKey (ResultID_name id); OnInt (expected_count n f id)]).
Proof.
  intros Hread. induction ids as [|id ids IH]; [reflexivity|].
  cbn [mbind list_bind]. rewrite IH. unfold counter_events at 1.
  rewrite Hread. reflexivity.
Qed.

(** X13.  What the exporter reads after traffic: starting with all
    counters at zero, after a sequence of calls in which no kind overflows
    its counters, a full visit of the traces registry, whatever the order
    in which its entries are ranged over, shows each of the four
    result-ids once, under its name: the number of trace calls for the
    request and the response counter, the number of failed trace calls
    for the error counter and their difference for the valid counter. *)
Theorem traces_registry_after_calls (w : World) (cs : list Call) (order : list Entry) :
  (forall k id, monitoringMap k w !! id = Some 0%Z) ->
  Forall (fun c => call_consumer c < length (heap w)) cs ->
  (forall k, (Z.of_nat (calls_of k cs) <= max_int64)%Z) ->
  range_of gRPCTracesRegistry order ->
  exists (rs : list (option error)) (w' : World) (h : list Event) (ids : list ResultID),
    run_calls cs w = Some (rs, w')
    /\ history w' = history w ++ h
    /\ ids ≡ₚ monitoringKeys
    /\ Registry_Visit Full order w'
       = Some ([OnRegistryStart]
                 ++ (ids ≫= (fun id =>
                               [OnKey (ResultID_name id);
                                OnInt (expected_count (calls_of Traces cs)
                                         (failures Traces h) id)]))
                 ++ [OnRegistryFinished], w').
Proof.
  intros Hinit Hall Hlen Hrange.
  destruct (counters_after_calls_wrapping w cs Hinit Hall)
    as (rs & w' & h & Hrun & Hh & _ & Htal & Hread).
  destruct (range_of_traces order Hrange) as (ids & Hids & ->).
  exists rs, w', h, ids. split_and!; try assumption.
  destruct (Htal Traces) as (H1 & H2 & H3 & H4 & H5).
  specialize (Hlen Traces). unfold max_int64 in Hlen.
  assert (Hfit : forall n, n <= calls_of Traces cs ->
                           int64_wrap (Z.of_nat n) = Z.of_nat n).
  { intros n Hn. apply int64_wrap_id. unfold max_int64. lia. }
  assert (Hexp : forall id,
             monitoringMap Traces w' !! id
             = Some (expected_count (calls_of Traces cs) (failures Traces h) id)).
  { intros id. rewrite Hread.
    destruct id; cbn [expected_count]; rewrite ?H1, ?H2, ?H3, ?H4, Hfit by lia;
      try reflexivity.
    do 2 f_equal. lia. }
  unfold Registry_Visit. unfold mbind at 1, M_bind, bind.
  rewrite visit_counters_Full by (intros id; rewrite Hexp; eauto).
  rewrite (counter_events_expected _ _ _ _ _ Hexp). reflexivity.
Qed.

(** ** The logger of a consumer *)

(** X14.  Logging a failure does not change the consumer's logger: when
    two calls in a row on the same consumer both fail, each of the two
    entries carries the logger's own context followed by that call's
    error alone, and the second call's downstream invocation runs on the
    state the first one left. *)
Theorem failures_do_not_accumulate_context (w : World) (c1 c2 : Call)
  (mc : monitoredConsumer) (e1 e2 : error) :
  wf w ->
  call_consumer c2 = call_consumer c1 ->
  heap w !! call_consumer c1 = Some mc ->
  (call_answer c1 (consumer mc)).1 = Some e1 ->
  (call_answer c2 (call_answer c1 (consumer mc)).2).1 = Some e2 ->
  exists w',
    run_calls [c1; c2] w = Some ([Some e1; Some e2], w')
    /\ logs w'
       = logs w
         ++ [{| entry_level := ErrorLevel; entry_message := call_message c1;
                entry_fields :=
                  logger_context (logger mc)
                  ++ [{| field_key := "error"; field_error := e1 |}] |};
             {| entry_level := ErrorLevel; entry_message := call_message c2;
                entry_fields :=
                  logger_context (logger mc)
                  ++ [{| field_key := "error"; field_error := e2 |}] |}].
Proof.
  intros Hwf Hsame Hmc He1 He2.
  destruct (do_call_post w c1 mc Hwf Hmc) as (w1 & Hr1 & Hp1).
  pose proof (call_post_wf _ _ _ _ _ _ _ Hwf Hp1) as Hwf1.
  destruct Hp1 as (_ & _ & Hheap1 & Hlogs1 & _).
  assert (Hmc1 : heap w1 !! call_consumer c2
                 = Some {| consumer := (call_answer c1 (consumer mc)).2;
                           logger := logger mc |}).
  { rewrite Hsame, Hheap1. apply list_lookup_insert_eq. eapply lookup_lt_Some, Hmc. }
  destruct (do_call_post w1 c2 _ Hwf1 Hmc1) as (w2 & Hr2 & Hp2).
  destruct Hp2 as (_ & _ & _ & Hlogs2 & _).
  cbn [consumer logger] in Hr2, Hlogs2.
  rewrite He1 in Hr1, Hlogs1. rewrite He2 in Hr2, Hlogs2.
  exists w2. split.
  - cbn [run_calls]. unfold mbind, M_bind, bind. rewrite Hr1, Hr2. reflexivity.
  - rewrite Hlogs2, Hlogs1, <- app_assoc. reflexivity.
Qed.

(** ** Counters over whole runs *)

Lemma count_quiet (p : Event -> bool) (h : list Event) :
  (forall e, quiet e = true -> p e = false) ->
  forallb quiet h = true -> count p h = 0.
Proof.
  intros Hp. unfold count. induction h as [|e h IH]; [reflexivity|].
  cbn [forallb List.filter]. intros [He Hh]%andb_true_iff.
  rewrite (Hp e He). apply IH, Hh.
Qed.

Lemma replay_quiet (k : Kind) (h : list Event) (m : gmap ResultID Z) :
  forallb quiet h = true -> replay k h m = m.
Proof.
  revert m. induction h as [|e h IH]; intros m; [reflexivity|].
  cbn [forallb]. intros [He Hh]%andb_true_iff.
  destruct e; try discriminate; apply (IH m Hh).
Qed.

Lemma tallied_quiet (cs : list Call) (hq h : list Event) :
  forallb quiet hq = true -> tallied cs h -> tallied cs (hq ++ h).
Proof.
  intros Hq Ht k. destruct (Ht k) as (H1 & H2 & H3 & H4 & H5).
  unfold failures, successes in *. rewrite !count_app.
  rewrite !(count_quiet _ hq) by (try exact Hq; intros [] He; try discriminate; reflexivity).
  cbn. auto.
Qed.

Lemma register_history (w : World) (srv : grpc_Server) (p : BatchProcessor) (l : Logger) :
  exists res w' hq,
    RegisterGRPCServices srv p l w = Some (res, w')
    /\ history w' = history w ++ hq
    /\ forallb quiet hq = true.
Proof.
  rewrite RegisterGRPCServices_eq. cbn zeta.
  destruct (otlpreceiver_RegisterTraceReceiver _ _ srv) as [[e|] srv1];
    [|destruct (otlpreceiver_RegisterMetricsReceiver _ _ srv1) as [[e|] srv2]].
  - eexists _, _, [_; _]. split; [reflexivity|]. cbn [history record].
    rewrite <- app_assoc. split; reflexivity.
  - eexists _, _, [_; _; _]. split; [reflexivity|]. cbn [history record].
    rewrite <- !app_assoc. split; reflexivity.
  - eexists _, _, [_; _; _]. split; [reflexivity|]. cbn [history record].
    rewrite <- !app_assoc. split; reflexivity.
Qed.

Lemma run_ops_spec (ops : list Op) (w : World) :
  wf w -> slot_allocated w -> calls_allocated (length (heap w)) ops = true ->
  exists (w' : World) (h : list Event),
    run_ops ops w = Some (tt, w')
    /\ history w' = history w ++ h
    /\ (forall k, monitoringMap k w' = replay k h (monitoringMap k w))
    /\ tallied (calls_in ops) h.
Proof.
  revert w. induction ops as [|op ops IH]; intros w Hwf Hslot Hall.
  - exists w, []. cbn. rewrite app_nil_r. split_and!; try reflexivity.
    intros k. split_and!; reflexivity.
  - destruct (run_op_post w op Hwf Hslot) as (w1 & Hrun & Hwf1 & Hslot1 & Hlen & _).
    { intros c ->. cbn in Hall. apply andb_true_iff in Hall as [Hlt _].
      apply Nat.ltb_lt, Hlt. }
    destruct (IH w1 Hwf1 Hslot1) as (w' & h & Hrest & Hh & Hmaps & Htal).
    { rewrite Hlen. destruct op; cbn in Hall |- *.
      - rewrite Nat.add_1_r. exact Hall.
      - rewrite Nat.add_0_r. apply andb_true_iff in Hall as [_ Hall]. exact Hall.
      - rewrite Nat.add_0_r. exact Hall. }
    assert (Hstep : exists h1,
               history w1 = history w ++ h1
               /\ (forall k, monitoringMap k w1 = replay k h1 (monitoringMap k w))
               /\ tallied (calls_in (op :: ops)) (h1 ++ h)).
    { destruct op as [srv p l | c |]; cbn [run_op] in Hrun;
        unfold mbind, M_bind, bind in Hrun.
      - destruct (register_history w srv p l) as (res & w2 & hq & Hreg & Hhq & Hq).
        destruct (register_post w srv p l) as (res' & w2' & Hreg' & Hm & _).
        rewrite Hreg in Hreg'. injection Hreg' as <- <-.
        rewrite Hreg in Hrun. injection Hrun as <-.
        exists hq. split_and!.
        + exact Hhq.
        + intros k. rewrite replay_quiet by exact Hq. apply Hm.
        + apply tallied_quiet; assumption.
      - cbn in Hall. apply andb_true_iff in Hall as [Hlt _]. apply Nat.ltb_lt in Hlt.
        destruct (do_call_spec w c Hwf Hlt) as (mc & msg & r & w2 & Hcall & Hpost).
        rewrite Hcall in Hrun. injection Hrun as <-.
        destruct Hpost as (Hm & _ & _ & _ & Hhist).
        eexists. split_and!; [exact Hhist | exact Hm |].
        cbn [calls_in omap]. apply tallied_cons, Htal.
      - destruct (collect_returns w Hslot) as [evs Hcol].
        rewrite Hcol in Hrun. injection Hrun as <-.
        exists []. rewrite app_nil_r. split_and!; try reflexivity. exact Htal. }
    destruct Hstep as (h1 & Hh1 & Hm1 & Htal1).
    exists w', (h1 ++ h). split_and!.
    + cbn [run_ops]. unfold mbind at 1, M_bind, bind. rewrite Hrun. exact Hrest.
    + rewrite Hh, Hh1, app_assoc. reflexivity.
    + intros k. rewrite Hmaps, Hm1, replay_app. reflexivity.
    + exact Htal1.
Qed.

(** X15.  The counters are process-wide.  Over a whole run from process
    start, with registrations and polls anywhere between the calls and
    the calls spread over all the consumers registered so far, each
    group's counters read the number of that kind's calls (twice), the
    number of its downstream failures and their difference, provided no
    kind has more calls than a 64-bit counter holds: registering again
    resets nothing. *)
Theorem counters_after_runs (w : World) (ops : list Op) :
  (forall k id, monitoringMap k w !! id = Some 0%Z) ->
  slot_allocated w ->
  calls_allocated (length (heap w)) ops = true ->
  (forall k, (Z.of_nat (calls_of k (calls_in ops)) <= max_int64)%Z) ->
  exists (w' : World) (h : list Event),
    run_ops ops w = Some (tt, w')
    /\ history w' = history w ++ h
    /\ forall k,
         let n := calls_of k (calls_in ops) in
         failures k h + successes k h = n
         /\ monitoringMap k w' !! IDRequestCount = Some (Z.of_nat n)
         /\ monitoringMap k w' !! IDResponseCount = Some (Z.of_nat n)
         /\ monitoringMap k w' !! IDResponseErrorsCount = Some (Z.of_nat (failures k h))
         /\ monitoringMap k w' !! IDResponseValidCount
            = Some (Z.of_nat (n - failures k h)).
Proof.
  intros Hinit Hslot Hall Hlen.
  assert (Hwf : wf w).
  { apply wf_intro. intros k id. rewrite Hinit. eauto. }
  destruct (run_ops_spec ops w Hwf Hslot Hall) as (w' & h & Hrun & Hh & Hmaps & Htal).
  exists w', h. split_and!; try assumption.
  intros k. cbn zeta. destruct (Htal k) as (H1 & H2 & H3 & H4 & H5).
  specialize (Hlen k). unfold max_int64 in Hlen.
  assert (Hread : forall id n,
             count (is_inc k id) h = n -> n <= calls_of k (calls_in ops) ->
             monitoringMap k w' !! id = Some (Z.of_nat n)).
  { intros id n Hn Hnle. rewrite Hmaps.
    rewrite (replay_lookup k h _ id 0%Z (Hinit k id)) by (unfold max_int64; lia).
    rewrite Hn, Z.add_0_l, int64_wrap_id; [reflexivity|]. unfold max_int64. lia. }
  split_and!.
  - exact H5.
  - apply Hread; [exact H1 | lia].
  - apply Hread; [exact H2 | lia].
  - apply Hread; [exact H3 | lia].
  - apply Hread; [rewrite H4; lia | lia].
Qed.

(** ** The metrics registry before any registration *)

(** X16.  While no consumer is installed, a visit of the metrics registry
    in reported mode announces the key "consumer" and then sends nothing
    for it: the key is directly followed by the end of the registry,
    whatever the order in which the entries are ranged over. *)
Theorem metrics_registry_with_empty_slot (w : World) (order : list Entry) :
  currentMonitoredConsumer w = None ->
  range_of gRPCMetricsRegistry order ->
  Registry_Visit Reported order w
  = Some ([OnRegistryStart; OnKey "consumer"; OnRegistryFinished], w).
Proof.
  intros Hcur Hrange.
  destruct (range_of_metrics order Hrange) as (ids1 & ids2 & _ & ->).
  rewrite (visit_metrics_Reported w ids1 ids2 []); [reflexivity|].
  unfold collectMetricsMonitoring. rewrite Hcur. reflexivity.
Qed.

End Properties.

(** * The claims at concrete inputs

    The scripted collaborators of [Fake] instantiate the theorems. *)

(** C1 at five calls: three trace calls with one failure, two metrics
    calls with one failure. *)
Lemma counters_after_calls_witness :
  exists (rs : list (option error)) (w' : World) (h : list Event),
    run_calls Fake.calls Fake.world1 = Some (rs, w')
    /\ history w' = history Fake.world1 ++ h
    /\ rs = outcomes h
    /\ forall k,
         failures k h + successes k h = calls_of k Fake.calls
         /\ monitoringMap k w' !! IDRequestCount = Some (Z.of_nat (calls_of k Fake.calls))
         /\ monitoringMap k w' !! IDResponseCount = Some (Z.of_nat (calls_of k Fake.calls))
         /\ monitoringMap k w' !! IDResponseErrorsCount = Some (Z.of_nat (failures k h))
         /\ monitoringMap k w' !! IDResponseValidCount
            = Some (Z.of_nat (calls_of k Fake.calls - failures k h)).
Proof.
  apply (counters_after_calls (DS := Fake.downstream) Fake.world1 Fake.calls).
  - intros [] []; reflexivity.
  - repeat constructor.
  - intros []; vm_compute; discriminate.
Defined.

Example five_calls_counters :
  (fun r => (monitoringMap Traces r.2 !! IDRequestCount,
             monitoringMap Traces r.2 !! IDResponseCount,
             monitoringMap Traces r.2 !! IDResponseErrorsCount,
             monitoringMap Traces r.2 !! IDResponseValidCount,
             (monitoringMap Metrics r.2 !! IDRequestCount,
              monitoringMap Metrics r.2 !! IDResponseCount,
              monitoringMap Metrics r.2 !! IDResponseErrorsCount,
              monitoringMap Metrics r.2 !! IDResponseValidCount)))
    <$> run_calls Fake.calls Fake.world1
  = Some (Some 3, Some 3, Some 1, Some 2, (Some 2, Some 2, Some 1, Some 1))%Z.
Proof. vm_compute. reflexivity. Qed.

(** C2 at a trace payload the processor refuses and a metrics payload it
    accepts. *)
Lemma consume_returns_downstream_error_witness :
  (exists w',
     ConsumeTraces (DS := Fake.downstream) 0 Fake.Live 9 Fake.world1
     = Some (Some (errorString "queue is full"), w')
     /\ logs w'
        = [{| entry_level := ErrorLevel;
              entry_message := "ConsumeTraces returned an error";
              entry_fields :=
                [{| field_key := "error";
                    field_error := errorString "queue is full" |}] |}])
  /\ (exists w',
        ConsumeMetrics (DS := Fake.downstream) 0 Fake.Live 2 Fake.world1 = Some (None, w')
        /\ logs w' = []).
Proof.
  apply (consume_returns_downstream_error (DS := Fake.downstream)
           Fake.world1 0 Fake.consumer0 Fake.Live 9 2).
  - reflexivity.
  - reflexivity.
Defined.

(** C6 at a cancelled context: the downstream invocation returns early
    with an error, and the deferred increment still comes last. *)
Lemma consume_effects_in_order_witness :
  (exists w',
     ConsumeTraces (DS := Fake.downstream) 0 Fake.Cancelled 1 Fake.world1
     = Some (Some (errorString "context canceled"), w')
     /\ history w'
        = history Fake.world1
          ++ [EvInc Traces IDRequestCount;
              EvConsume Traces 0 (Some (errorString "context canceled"));
              EvInc Traces IDResponseErrorsCount]
          ++ [EvLog (error_entry Fake.stdlog "ConsumeTraces returned an error"
                       (errorString "context canceled"))]
          ++ [EvInc Traces IDResponseCount])
  /\ (exists w',
        ConsumeMetrics (DS := Fake.downstream) 0 Fake.Cancelled 1 Fake.world1
        = Some (Some (errorString "context canceled"), w')
        /\ history w'
           = history Fake.world1
             ++ [EvInc Metrics IDRequestCount;
                 EvConsume Metrics 0 (Some (errorString "context canceled"));
                 EvInc Metrics IDResponseErrorsCount]
             ++ [EvLog (error_entry Fake.stdlog "ConsumeMetrics returned an error"
                          (errorString "context canceled"))]
             ++ [EvInc Metrics IDResponseCount]).
Proof.
  apply (consume_effects_in_order (DS := Fake.downstream)
           Fake.world1 0 Fake.consumer0 Fake.Cancelled 1 1).
  - reflexivity.
  - reflexivity.
Defined.

(** C7 at one failing trace call and one accepted metrics call. *)
Lemma consume_frames_other_group_witness :
  (exists r w',
     ConsumeTraces (DS := Fake.downstream) 0 Fake.Live 9 Fake.world1 = Some (r, w')
     /\ gRPCMetricsMonitoringMap w' = gRPCMetricsMonitoringMap Fake.world1)
  /\ (exists r w',
        ConsumeMetrics (DS := Fake.downstream) 0 Fake.Live 2 Fake.world1 = Some (r, w')
        /\ gRPCTracesMonitoringMap w' = gRPCTracesMonitoringMap Fake.world1).
Proof.
  apply (consume_frames_other_group (DS := Fake.downstream)
           Fake.world1 0 Fake.consumer0 Fake.Live 9 2).
  - reflexivity.
  - reflexivity.
Defined.

(** C3 as stated fails.  On a server that already has the trace service,
    the trace registration fails with a cause, and the error that
    [RegisterGRPCServices] returns is not that cause wrapped with "failed
    to register trace receiver": the message of the code reads "failed to
    register OTLP trace receiver", and the stated message does not even
    occur in the error's text. *)
Lemma register_error_message_counterexample :
  let cause := errorString "duplicate service registration for TraceService" in
  let result :=
    RegisterGRPCServices (FW := Fake.framework) ["TraceService"] 5 Fake.stdlog
      initial_World in
  otlpreceiver_RegisterTraceReceiver (Framework := Fake.framework)
    Fake.Live (trace_New "otlp" 0) ["TraceService"]
  = (Some cause, ["TraceService"])
  /\ returned_error result <> Some (withMessage cause "failed to register trace receiver")
  /\ returned_error result
     = Some (withMessage cause "failed to register OTLP trace receiver")
  /\ (Error_string <$> returned_error result)
     = Some "failed to register OTLP trace receiver: duplicate service registration for TraceService".
Proof.
  cbn zeta. split_and!.
  - reflexivity.
  - vm_compute. discriminate.
  - reflexivity.
  - reflexivity.
Qed.

(** The same for the metrics registration. *)
Lemma register_metrics_message_example :
  let cause := errorString "duplicate service registration for MetricsService" in
  returned_error
    (RegisterGRPCServices (FW := Fake.framework) ["MetricsService"] 5 Fake.stdlog
       initial_World)
  = Some (withMessage cause "failed to register OTLP metrics receiver").
Proof. reflexivity. Qed.

(** C9 at a failing registration: the entry point returns an error and
    the slot, nil before, holds the new consumer. *)
Lemma register_installs_before_registering_witness :
  slot_allocated (initial_World (DS := Fake.downstream))
  /\ exists res w' rest,
       RegisterGRPCServices (FW := Fake.framework) ["TraceService"] 5 Fake.stdlog
         initial_World = Some (res, w')
       /\ (is_Some res.1 <-> is_Some (Fake.register "TraceService" ["TraceService"]).1
            \/ is_Some (Fake.register "MetricsService"
                          (Fake.register "TraceService" ["TraceService"]).2).1)
       /\ heap w' = [Fake.consumer0]
       /\ currentMonitoredConsumer w' = Some 0
       /\ currentMonitoredConsumer w' <> None
       /\ history w'
          = EvSetCurrent (Some 0) :: EvRegisterTraceReceiver (trace_New "otlp" 0) :: rest
       /\ (rest = [] \/ rest = [EvRegisterMetricsReceiver (metrics_New "otlp" 0)]).
Proof.
  split; [exact I|].
  apply (register_installs_before_registering (FW := Fake.framework)
           initial_World ["TraceService"] 5 Fake.stdlog).
  exact I.
Defined.

(** C4 as stated fails.  Before any registration the reporter sends
    nothing to the visitor: no start marker and no finish marker. *)
Lemma reporter_opens_no_section_counterexample :
  currentMonitoredConsumer (initial_World (DS := Fake.downstream)) = None
  /\ collectMetricsMonitoring (DS := Fake.downstream) initial_World
     = Some ([], initial_World)
  /\ ~ (exists rest w',
          collectMetricsMonitoring (DS := Fake.downstream) initial_World
          = Some (OnRegistryStart :: OnRegistryFinished :: rest, w')).
Proof.
  split_and!.
  - reflexivity.
  - reflexivity.
  - intros (rest & w' & H). discriminate H.
Qed.

(** C4 as amended, before any registration and after one. *)
Lemma reporter_reads_slot_first_witness :
  collectMetricsMonitoring (DS := Fake.downstream) initial_World = Some ([], initial_World)
  /\ exists rest,
       collectMetricsMonitoring Fake.world1
       = Some (OnRegistryStart :: OnRegistryFinished :: rest, Fake.world1).
Proof.
  split.
  - apply (reporter_reads_slot_first (DS := Fake.downstream) initial_World). exact I.
  - apply (reporter_reads_slot_first (DS := Fake.downstream) Fake.world1).
    vm_compute. constructor.
Defined.

(** C5 after one registration. *)
Lemma reporter_writes_unsupported_dropped_witness :
  collectMetricsMonitoring Fake.world1
  = Some ([OnRegistryStart; OnRegistryFinished]
            ++ ReportNamespace "consumer" (ReportInt "unsupported_dropped" 0%Z),
          Fake.world1)
  /\ ReportNamespace "consumer" (ReportInt "unsupported_dropped" 0%Z)
     = [OnKey "consumer"; OnRegistryStart; OnKey "unsupported_dropped"; OnInt 0;
        OnRegistryFinished].
Proof.
  apply (reporter_writes_unsupported_dropped (DS := Fake.downstream)
           Fake.world1 0 Fake.consumer0).
  - reflexivity.
  - reflexivity.
Defined.

(** C8 with the two registered consumers of [Fake.world2]. *)
Lemma slot_last_write_wins_witness :
  exists w',
    (setCurrentMonitoredConsumer (Some 0);; setCurrentMonitoredConsumer (Some 1)) Fake.world2
    = Some (tt, w')
    /\ heap w' = heap Fake.world2
    /\ currentMonitoredConsumer w' = Some 1
    /\ currentMonitoredConsumer w' <> None
    /\ (0 <> 1 -> currentMonitoredConsumer w' <> Some 0)
    /\ collectMetricsMonitoring w'
       = Some (consumer_report (otel_Stats (consumer Fake.consumer1)), w')
    /\ (0 <> 1 ->
        forall ma : monitoredConsumer (DS := Fake.downstream),
          fst <$> collectMetricsMonitoring (set_heap (<[0 := ma]> (heap w')) w')
          = Some (consumer_report (otel_Stats (consumer Fake.consumer1)))).
Proof.
  apply (slot_last_write_wins (DS := Fake.downstream) Fake.world2 0 1 Fake.consumer1).
  reflexivity.
Defined.

(** * The further properties at concrete inputs *)

(** X1 at a refused trace payload. *)
Lemma call_increments_exactly_once_witness :
  exists w',
    do_call Fake.refused_traces Fake.world1 = Some (Some (errorString "queue is full"), w')
    /\ monitoringMap Traces w' !! IDRequestCount = Some 1%Z
    /\ monitoringMap Traces w' !! IDResponseCount = Some 1%Z
    /\ monitoringMap Traces w' !! IDResponseErrorsCount = Some 1%Z
       /\ monitoringMap Traces w' !! IDResponseValidCount = Some 0%Z.
Proof.
  apply (call_increments_exactly_once (DS := Fake.downstream)
           Fake.world1 Fake.refused_traces Fake.consumer0).
  - reflexivity.
  - reflexivity.
Defined.

(** X2 at the five calls of [Fake.calls]. *)
Lemma calls_keep_groups_balanced_witness :
  exists rs w',
    run_calls Fake.calls Fake.world1 = Some (rs, w') /\ forall k, balanced k w'.
Proof.
  apply (calls_keep_groups_balanced (DS := Fake.downstream) Fake.world1 Fake.calls).
  - intros []; exists 0%Z, 0%Z, 0%Z, 0%Z; repeat split.
  - repeat constructor.
Defined.

(** X3 at a metrics call on the first of two consumers. *)
Lemma call_keeps_slot_and_loggers_witness :
  exists r w',
    do_call Fake.accepted_metrics Fake.world2 = Some (r, w')
    /\ currentMonitoredConsumer w' = Some 1
    /\ length (heap w') = 2
    /\ (forall (c' : loc) (mc' : monitoredConsumer),
          heap Fake.world2 !! c' = Some mc' ->
          exists mc'', heap w' !! c' = Some mc'' /\ logger mc'' = logger mc').
Proof.
  apply (call_keeps_slot_and_loggers (DS := Fake.downstream)
           Fake.world2 Fake.accepted_metrics Fake.consumer0).
  - reflexivity.
  - reflexivity.
Defined.

(** X4: after a metrics call with two unsupported items on the current
    consumer, the reporter shows 2. *)
Lemma report_follows_calls_on_current_witness :
  exists r w',
    do_call Fake.accepted_metrics Fake.world1 = Some (r, w')
    /\ collectMetricsMonitoring w'
       = Some ([OnRegistryStart; OnRegistryFinished; OnKey "consumer"; OnRegistryStart;
                OnKey "unsupported_dropped"; OnInt 2; OnRegistryFinished], w').
Proof.
  apply (report_follows_calls_on_current (DS := Fake.downstream)
           Fake.world1 Fake.accepted_metrics Fake.consumer0).
  - reflexivity.
  - reflexivity.
  - reflexivity.
Defined.

(** X5: the same call on the first consumer once the second is current. *)
Lemma superseded_consumer_counts_unreported_witness :
  exists r w',
    do_call Fake.accepted_metrics Fake.world2 = Some (r, w')
    /\ monitoringMap Metrics w' !! IDRequestCount = Some 1%Z
    /\ collectMetricsMonitoring Fake.world2
       = Some (consumer_report {| UnsupportedMetricsDropped := 0 |}, Fake.world2)
    /\ collectMetricsMonitoring w'
       = Some (consumer_report {| UnsupportedMetricsDropped := 0 |}, w').
Proof.
  apply (superseded_consumer_counts_unreported (DS := Fake.downstream)
           Fake.world2 Fake.accepted_metrics Fake.consumer0 1 Fake.consumer1).
  - reflexivity.
  - reflexivity.
  - reflexivity.
  - reflexivity.
  - discriminate.
Defined.

(** X8 at the five calls of [Fake.calls], two of which fail. *)
Lemma one_log_entry_per_failure_witness :
  exists (rs : list (option error)) (w' : World) (h : list Event) (new : list LogEntry),
    run_calls Fake.calls Fake.world1 = Some (rs, w')
    /\ history w' = history Fake.world1 ++ h
    /\ logs w' = logs Fake.world1 ++ new
    /\ length new = failures Traces h + failures Metrics h
    /\ Forall (fun e => entry_level e = ErrorLevel) new.
Proof.
  apply (one_log_entry_per_failure (DS := Fake.downstream) Fake.world1 Fake.calls).
  - reflexivity.
  - repeat constructor.
Defined.

(** X9 at the same calls. *)
Lemma one_downstream_invocation_per_call_witness :
  exists (rs : list (option error)) (w' : World) (h : list Event),
    run_calls Fake.calls Fake.world1 = Some (rs, w')
    /\ history w' = history Fake.world1 ++ h
    /\ length (outcomes h) = 5
    /\ rs = outcomes h.
Proof.
  apply (one_downstream_invocation_per_call (DS := Fake.downstream) Fake.world1 Fake.calls).
  - reflexivity.
  - repeat constructor.
Defined.

(** X10 at a run from process start. *)
Lemma completed_runs_keep_state_sound_witness :
  wf Fake.world_after_ops /\ slot_allocated Fake.world_after_ops
  /\ length (heap Fake.world_after_ops) = 2.
Proof.
  apply (completed_runs_keep_state_sound (FW := Fake.framework)
           initial_World Fake.world_after_ops Fake.ops).
  - reflexivity.
  - exact I.
  - vm_compute. reflexivity.
Defined.

(** X11 at the same run. *)
Lemma polls_leave_no_trace_witness :
  exists w',
    run_ops Fake.ops initial_World = Some (tt, w')
    /\ run_ops (without_collect Fake.ops) initial_World = Some (tt, w').
Proof.
  apply (polls_leave_no_trace (FW := Fake.framework) initial_World Fake.ops).
  - reflexivity.
  - exact I.
  - reflexivity.
Defined.

(** X13 at the five calls of [Fake.calls], three trace calls of which one
    failed, with the registry ranged over backwards. *)
Lemma traces_registry_after_calls_witness :
  exists (rs : list (option error)) (w' : World) (h : list Event) (ids : list ResultID),
    run_calls Fake.calls Fake.world1 = Some (rs, w')
    /\ history w' = history Fake.world1 ++ h
    /\ ids ≡ₚ monitoringKeys
    /\ Registry_Visit Full Fake.traces_order w'
       = Some ([OnRegistryStart]
                 ++ (ids ≫= (fun id =>
                               [OnKey (ResultID_name id);
                                OnInt (expected_count 3 (failures Traces h) id)]))
                 ++ [OnRegistryFinished], w').
Proof.
  apply (traces_registry_after_calls (DS := Fake.downstream)
           Fake.world1 Fake.calls Fake.traces_order).
  - intros [] []; reflexivity.
  - repeat constructor.
  - intros []; vm_compute; discriminate.
  - apply reverse_Permutation.
Defined.

(** The same visit evaluated: the counters come in the order of the
    range, each with its own value. *)
Example traces_visit_backwards :
  (fun r => fst <$> Registry_Visit Full Fake.traces_order r.2)
    <$> run_calls Fake.calls Fake.world1
  = Some (Some [OnRegistryStart;
                OnKey "response_valid_count"; OnInt 2;
                OnKey "response_errors_count"; OnInt 1;
                OnKey "response_count"; OnInt 3;
                OnKey "request_count"; OnInt 3;
                OnRegistryFinished]).
Proof. vm_compute. reflexivity. Qed.

(** X14 at a cancelled trace call followed by a refused metrics call. *)
Lemma failures_do_not_accumulate_context_witness :
  exists w',
    run_calls [Fake.cancelled_traces; Fake.refused_metrics] Fake.world1
    = Some ([Some (errorString "context canceled"); Some (errorString "queue is full")], w')
    /\ logs w'
       = [{| entry_level := ErrorLevel;
             entry_message := "ConsumeTraces returned an error";
             entry_fields := [{| field_key := "error";
                                 field_error := errorString "context canceled" |}] |};
          {| entry_level := ErrorLevel;
             entry_message := "ConsumeMetrics returned an error";
             entry_fields := [{| field_key := "error";
                                 field_error := errorString "queue is full" |}] |}].
Proof.
  apply (failures_do_not_accumulate_context (DS := Fake.downstream)
           Fake.world1 Fake.cancelled_traces Fake.refused_metrics Fake.consumer0
           (errorString "context canceled") (errorString "queue is full")).
  - reflexivity.
  - reflexivity.
  - reflexivity.
  - reflexivity.
  - reflexivity.
Defined.

(** X15 at the run of [Fake.ops]: one trace call, which fails, and two
    metrics calls on two consumers. *)
Lemma counters_after_runs_witness :
  exists (w' : World) (h : list Event),
    run_ops Fake.ops initial_World = Some (tt, w')
    /\ history w' = h
    /\ forall k,
         let n := calls_of k (calls_in Fake.ops) in
         failures k h + successes k h = n
         /\ monitoringMap k w' !! IDRequestCount = Some (Z.of_nat n)
         /\ monitoringMap k w' !! IDResponseCount = Some (Z.of_nat n)
         /\ monitoringMap k w' !! IDResponseErrorsCount = Some (Z.of_nat (failures k h))
         /\ monitoringMap k w' !! IDResponseValidCount
            = Some (Z.of_nat (n - failures k h)).
Proof.
  apply (counters_after_runs (FW := Fake.framework) initial_World Fake.ops).
  - intros [] []; reflexivity.
  - exact I.
  - reflexivity.
  - intros []; vm_compute; discriminate.
Defined.

(** X16 at process start, with the callback ranged over first. *)
Lemma metrics_registry_with_empty_slot_witness :
  Registry_Visit Reported Fake.metrics_order (initial_World (DS := Fake.downstream))
  = Some ([OnRegistryStart; OnKey "consumer"; OnRegistryFinished], initial_World).
Proof.
  apply (metrics_registry_with_empty_slot (DS := Fake.downstream)
           initial_World Fake.metrics_order).
  - reflexivity.
  - unfold range_of, Fake.metrics_order. rewrite gRPCMetricsRegistry_entries.
    apply Permutation_cons_append.
Defined.
